(** * MLbibs/start01/process_images.py: the person-detection batch pipeline

    A shallow embedding of [process_zip_archive] and [main], and the
    properties of the pipeline's specification stated over it.

    Conventions of the embedding.
    - A Python [str] is a [list ascii] (names are taken in the ASCII range,
      where [str.lower] only moves [A-Z]); literals are written [lit "..."].
    - [os.path] is [posixpath].
    - The effects of the program (reads of archive members, detector calls,
      image writes, log records) are collected in a trace, and exceptions
      are explicit: a computation is a trace together with either a value
      or the exception that left it.
    - The archive reader, the image decoder, the detector and the directory
      listing are external: they are the fields of a record [externals],
      and every theorem holds for all of them.
    - The process pool is taken by the calls it makes: one call of the
      worker per archive, the calls of one process one after the other;
      the events of a batch are listed in the order of the listing. *)

From Stdlib Require Import ZArith Ascii String DecimalString DecimalNat.
From stdpp Require Import gmap strings list fin_maps.

Local Open Scope Z_scope.

(** ** Python strings and slices *)

Module Py.

Abbreviation str := (list ascii).

Definition lit (s : string) : str := list_ascii_of_string s.

(** [s[lo:hi]] for a slice of step one: a negative index counts from the
    end, and both ends are clamped to [0, len(s)]. *)
Definition clamp_index (n : nat) (i : Z) : nat :=
  Z.to_nat (if i <? 0 then Z.max 0 (i + Z.of_nat n) else Z.min i (Z.of_nat n)).

Definition slice {A} (lo hi : Z) (l : list A) : list A :=
  drop (clamp_index (length l) lo) (take (clamp_index (length l) hi) l).

(** [s[lo:]] and [s[:hi]]. *)
Definition slice_from {A} (lo : Z) (l : list A) : list A :=
  drop (clamp_index (length l) lo) l.

Definition slice_to {A} (hi : Z) (l : list A) : list A :=
  take (clamp_index (length l) hi) l.

(** [str.lower] on ASCII. *)
Definition lower_char (c : ascii) : ascii :=
  let n := nat_of_ascii c in
  if (65 <=? n)%nat && (n <=? 90)%nat then ascii_of_nat (n + 32) else c.

Definition lower (s : str) : str := map lower_char s.

(** [s.endswith(suffix)] and its tuple form. *)
Definition endswith (s suffix : str) : bool :=
  bool_decide (drop (length s - length suffix) s = suffix).

Definition endswith_any (s : str) (suffixes : list str) : bool :=
  existsb (endswith s) suffixes.

(** [s.rfind(c)] for a one-character [c]: the highest index holding [c],
    or [-1]. *)
Fixpoint rfind_from (c : ascii) (s : str) (i last : Z) : Z :=
  match s with
  | [] => last
  | a :: s' => rfind_from c s' (i + 1) (if bool_decide (a = c) then i else last)
  end.

Definition rfind (c : ascii) (s : str) : Z := rfind_from c s 0 (-1).

(** [f"{i}"] for a non-negative [int]. *)
Definition format_int (i : nat) : str :=
  list_ascii_of_string (NilEmpty.string_of_uint (Nat.to_uint i)).

End Py.

(** ** posixpath *)

Module posixpath.
Import Py.

Definition sep : ascii := "/"%char.
Definition extsep : ascii := "."%char.

(** [basename(p)]: [i = p.rfind('/') + 1; return p[i:]]. *)
Definition basename (p : str) : str :=
  let i := rfind sep p + 1 in
  slice_from i p.

(** The [while filenameIndex < dotIndex] loop of [genericpath._splitext]:
    [true] when it returns from inside the loop, that is when some
    character of the file name before the last dot is not a dot. *)
Fixpoint splitext_scan (p : str) (filenameIndex : Z) (steps : nat) : bool :=
  match steps with
  | O => false
  | S k =>
      if bool_decide (slice filenameIndex (filenameIndex + 1) p <> [extsep])
      then true
      else splitext_scan p (filenameIndex + 1) k
  end.

(** [splitext(p)] = [genericpath._splitext(p, '/', None, '.')]. *)
Definition splitext (p : str) : str * str :=
  let sepIndex := rfind sep p in
  let dotIndex := rfind extsep p in
  if (sepIndex <? dotIndex)
     && splitext_scan p (sepIndex + 1) (Z.to_nat (dotIndex - (sepIndex + 1)))
  then (slice_to dotIndex p, slice_from dotIndex p)
  else (p, slice_to 0 p).

(** [join(a, b)]. *)
Definition join (a b : str) : str :=
  match b with
  | c :: _ => if bool_decide (c = sep) then b
              else if bool_decide (a = []) || endswith a [sep] then a ++ b
                   else a ++ sep :: b
  | [] => if bool_decide (a = []) || endswith a [sep] then a ++ b
          else a ++ sep :: b
  end.

End posixpath.

(** ** Traces and exceptions *)

Module Effects.
Import Py.

Definition pixel : Type := (N * N * N)%type.

(** A decoded image: rows of BGR pixels, [img[y][x]]. *)
Definition image : Type := list (list pixel).

(** An instance of [zipfile.BadZipFile], or of any other subclass of
    [Exception]; the handlers of the program tell no other classes apart. *)
Inductive exn : Type :=
| BadZipFile (msg : str)
| Exception (msg : str).

Inductive level : Type := INFO | WARNING | ERROR.

(** The log records of the program, by the format string that builds them. *)
Inductive message : Type :=
| MsgCreatingDirs
| MsgNoZipFiles (input_dir : str)
| MsgFound (n : nat)
| MsgComplete
| MsgCouldNotDecode (image_name zip_path : str)
| MsgErrorProcessing (image_name zip_path : str) (e : exn)
| MsgBadZip (zip_path : str)
| MsgUnhandled (zip_path : str) (e : exn).

Inductive event : Type :=
| LoadModel (weights : str)
| ZipRead (zip_path image_name : str)
| Predict (img : image)
| ImWrite (path : str) (img : image)
| MakeDirs (path : str)
| Log (lvl : level) (msg : message).

(** A computation: the events it performed, and how it ended. *)
Definition M (A : Type) : Type := (list event * (exn + A))%type.

Definition ret {A} (a : A) : M A := ([], inr a).

Definition bind {A B} (m : M A) (k : A -> M B) : M B :=
  match m with
  | (t, inl e) => (t, inl e)
  | (t, inr a) => let '(t', r) := k a in (t ++ t', r)
  end.

Definition raise {A} (e : exn) : M A := ([], inl e).

Definition emit (ev : event) : M unit := ([ev], inr tt).

Definition lift {A} (r : exn + A) : M A := ([], r).

(** [try: body / except Exception as e: handler e]. *)
Definition try_except {A} (body : M A) (handler : exn -> M A) : M A :=
  match body with
  | (t, inl e) => let '(t', r) := handler e in (t ++ t', r)
  | (t, inr a) => (t, inr a)
  end.

Definition trace {A} (m : M A) : list event := fst m.
Definition outcome {A} (m : M A) : exn + A := snd m.

End Effects.

Declare Scope py_scope.
Delimit Scope py_scope with py.
Notation "x <- m ;; k" := (Effects.bind m (fun x => k))
  (at level 100, m at next level, right associativity) : py_scope.
Notation "m ;; k" := (Effects.bind m (fun _ => k))
  (at level 100, right associativity) : py_scope.

(** ** The program *)

Module Pipeline.
Import Py posixpath Effects.
Local Open Scope py_scope.

Definition INPUT_DIR : str := lit "zip".
Definition OUTPUT_DIR : str := lit "output".
Definition PERSON_DIR : str := join OUTPUT_DIR (lit "Person").
Definition NO_PERSON_DIR : str := join OUTPUT_DIR (lit "No_Person").

(** [box.xyxy[0].cpu().numpy().astype(int)]: the four corners, as integers. *)
Record box : Type := Box { x1 : Z; y1 : Z; x2 : Z; y2 : Z }.

(** The members of an opened archive, in the order of [namelist()], each
    with what [ZipFile.read] gives for it: its bytes, or the exception
    raised while reading them. *)
Definition archive : Type := list (str * (exn + list Byte.byte)).

(** What the program takes from its libraries and from the input
    directory. *)
Record externals : Type := Externals {
  (** [zipfile.ZipFile(zip_path, 'r')] *)
  ZipFile : str -> exn + archive;
  (** [cv2.imdecode(np.frombuffer(img_bytes, np.uint8), cv2.IMREAD_COLOR)];
      [None] when the bytes are not an image. *)
  imdecode : list Byte.byte -> exn + option image;
  (** [model.predict(img, classes=[0], verbose=False)]: a list of results,
      each with its boxes. *)
  predict : image -> exn + list (list box);
  (** [glob.glob(os.path.join(INPUT_DIR, '*.zip'))] *)
  glob_zip_files : list str
}.

Definition namelist (zip_ref : archive) : list str := map fst zip_ref.

(** [ZipFile.getinfo]: [NameToInfo[name]], where a later member of the same
    name has replaced an earlier one. *)
Fixpoint getinfo (zip_ref : archive) (name : str) : option (exn + list Byte.byte) :=
  match zip_ref with
  | [] => None
  | (n, data) :: rest =>
      match getinfo rest name with
      | Some later => Some later
      | None => if bool_decide (n = name) then Some data else None
      end
  end.

(** [zip_ref.read(image_name)] *)
Definition zip_read (zip_path : str) (zip_ref : archive) (image_name : str)
  : M (list Byte.byte) :=
  emit (ZipRead zip_path image_name) ;;
  match getinfo zip_ref image_name with
  | Some data => lift data
  | None => raise (Exception (lit "KeyError"))
  end.

(** [img[y1:y2, x1:x2]] *)
Definition crop (img : image) (b : box) : image :=
  map (slice (x1 b) (x2 b)) (slice (y1 b) (y2 b) img).

(** An array without elements: no row, or rows without columns. *)
Definition image_empty (img : image) : bool :=
  forallb (fun row => bool_decide (row = [])) img.

(** [cv2.imwrite(path, img)]: OpenCV refuses an empty image with
    [cv2.error]; any other image is stored at [path], replacing what was
    there. The output directories exist, [main] having created them. *)
Definition imwrite (path : str) (img : image) : M unit :=
  if image_empty img then raise (Exception (lit "cv2.error"))
  else emit (ImWrite path img).

Definition person_filename (zip_path image_name : str) (i : nat) : str :=
  let base_name := (splitext (basename image_name)).1 in
  let zip_name := (splitext (basename zip_path)).1 in
  zip_name ++ lit "_" ++ base_name ++ lit "_person_" ++ format_int i ++ lit ".jpg".

Definition no_person_filename (zip_path image_name : str) : str :=
  let base_name := basename image_name in
  let zip_name := (splitext (basename zip_path)).1 in
  zip_name ++ lit "_" ++ base_name.

(** [f.lower().endswith(('.png', '.jpg', '.jpeg'))] *)
Definition is_image_file (f : str) : bool :=
  endswith_any (lower f) [lit ".png"; lit ".jpg"; lit ".jpeg"].

(** [for i, box in enumerate(results[0].boxes)], from index [i] on, with the
    flag [person_detected] as the loop's state. *)
Fixpoint person_loop (zip_path image_name : str) (img : image)
    (i : nat) (boxes : list box) (person_detected : bool) : M bool :=
  match boxes with
  | [] => ret person_detected
  | b :: rest =>
      let person_detected := true in
      let cropped_img := crop img b in
      imwrite (join PERSON_DIR (person_filename zip_path image_name i)) cropped_img ;;
      person_loop zip_path image_name img (S i) rest person_detected
  end.

(** The body of the inner [try], for one [image_name]. *)
Definition process_image_body (E : externals) (zip_path : str)
    (zip_ref : archive) (image_name : str) : M unit :=
  img_bytes <- zip_read zip_path zip_ref image_name ;;
  decoded <- lift (imdecode E img_bytes) ;;
  match decoded with
  | None => emit (Log WARNING (MsgCouldNotDecode image_name zip_path))
  | Some img =>
      emit (Predict img) ;;
      results <- lift (predict E img) ;;
      person_detected <-
        match results with
        | boxes :: _ =>
            if bool_decide (boxes <> [])
            then person_loop zip_path image_name img 0 boxes false
            else ret false
        | [] => ret false
        end ;;
      if negb person_detected
      then imwrite (join NO_PERSON_DIR (no_person_filename zip_path image_name)) img
      else ret tt
  end.

(** One turn of [for image_name in image_files]: the inner [try] with its
    [except Exception]. *)
Definition process_image (E : externals) (zip_path : str)
    (zip_ref : archive) (image_name : str) : M unit :=
  try_except (process_image_body E zip_path zip_ref image_name)
    (fun e => emit (Log ERROR (MsgErrorProcessing image_name zip_path e))).

Fixpoint for_each {A} (l : list A) (body : A -> M unit) : M unit :=
  match l with
  | [] => ret tt
  | x :: rest => body x ;; for_each rest body
  end.

(** The body of the outer [try]. *)
Definition process_zip_archive_body (E : externals) (zip_path : str) : M unit :=
  zip_ref <- lift (ZipFile E zip_path) ;;
  let image_files := List.filter is_image_file (namelist zip_ref) in
  for_each image_files (process_image E zip_path zip_ref).

(** The worker. The detector is built from the weights file shipped with
    the program before the [try]; the load is recorded, and the loaded
    detector is [predict E]. *)
Definition process_zip_archive (E : externals) (zip_path : str) : M str :=
  emit (LoadModel (lit "yolov8s.pt")) ;;
  try_except (process_zip_archive_body E zip_path)
    (fun e =>
       match e with
       | BadZipFile _ => emit (Log ERROR (MsgBadZip zip_path))
       | Exception _ => emit (Log ERROR (MsgUnhandled zip_path e))
       end) ;;
  ret zip_path.

(** The calls a pool process makes, one after the other, for the archives
    handed to it; [executor.map] yields the results in the order of
    [zip_files] and raises what a call raised. The events of the calls are
    listed in that order. *)
Fixpoint executor_map (E : externals) (zip_files : list str) : M (list str) :=
  match zip_files with
  | [] => ret []
  | z :: rest =>
      r <- process_zip_archive E z ;;
      rs <- executor_map E rest ;;
      ret (r :: rs)
  end.

Definition main (E : externals) : M unit :=
  emit (Log INFO MsgCreatingDirs) ;;
  emit (MakeDirs PERSON_DIR) ;;
  emit (MakeDirs NO_PERSON_DIR) ;;
  let zip_files := glob_zip_files E in
  if bool_decide (zip_files = [])
  then emit (Log ERROR (MsgNoZipFiles INPUT_DIR))
  else
    emit (Log INFO (MsgFound (length zip_files))) ;;
    _ <- executor_map E zip_files ;;
    emit (Log INFO MsgComplete).

End Pipeline.

(** ** What a trace shows, and what it does to the output directories *)

Module Observe.
Import Py posixpath Effects Pipeline.

Definition person_path (zip_path image_name : str) (i : nat) : str :=
  join PERSON_DIR (person_filename zip_path image_name i).

Definition no_person_path (zip_path image_name : str) : str :=
  join NO_PERSON_DIR (no_person_filename zip_path image_name).

(** [results[0].boxes] when there is a first result, no box otherwise. *)
Definition boxes_of (results : list (list box)) : list box :=
  match results with
  | boxes :: _ => boxes
  | [] => []
  end.

Definition writes (t : list event) : list (str * image) :=
  omap (fun ev => match ev with ImWrite p img => Some (p, img) | _ => None end) t.

Definition reads (t : list event) : list (str * str) :=
  omap (fun ev => match ev with ZipRead z n => Some (z, n) | _ => None end) t.

Definition loads (t : list event) : nat :=
  length (omap (fun ev => match ev with LoadModel w => Some w | _ => None end) t).

Definition logged (t : list event) : list (level * message) :=
  omap (fun ev => match ev with Log l m => Some (l, m) | _ => None end) t.

(** [p] names a file directly inside the directory [d]. *)
Definition in_dir (d p : str) : bool :=
  bool_decide (take (length d + 1) p = d ++ [sep])
  && bool_decide (sep ∉ drop (length d + 1) p).

Definition files_written (d : str) (t : list event) : list str :=
  List.filter (in_dir d) (map fst (writes t)).

(** The directories [os.makedirs(p, exist_ok=True)] leaves in place: [p]
    and the directories above it. *)
Fixpoint ancestors (above rest : str) : list str :=
  match rest with
  | [] => []
  | c :: rest' =>
      (if bool_decide (c = sep) && negb (bool_decide (above = []))
       then [above] else [])
      ++ ancestors (above ++ [c]) rest'
  end.

Definition makedirs (p : str) : list str := ancestors [] p ++ [p].

Record filesystem : Type := Filesystem {
  dirs : gset str;
  files : gmap str image
}.

Definition apply_event (fs : filesystem) (ev : event) : filesystem :=
  match ev with
  | ImWrite p img => Filesystem (dirs fs) (<[p := img]> (files fs))
  | MakeDirs p => Filesystem (list_to_set (makedirs p) ∪ dirs fs) (files fs)
  | _ => fs
  end.

Definition run_trace (t : list event) (fs : filesystem) : filesystem :=
  foldl apply_event fs t.

(** The output tree [a] laid over the output tree [b]. *)
Definition over (a b : filesystem) : filesystem :=
  Filesystem (dirs a ∪ dirs b) (files a ∪ files b).

(** The names of the files a trace writes. *)
Definition written_names (t : list event) : gset str :=
  list_to_set (map fst (writes t)).

(** One run of the program from the state [fs] of the output tree. *)
Definition run (E : externals) (fs : filesystem) : filesystem :=
  run_trace (trace (main E)) fs.

(** The writes of the loop over the boxes from index [i] on: one per box,
    up to the first box whose crop is empty. *)
Fixpoint crop_writes (zip_path image_name : str) (img : image)
    (i : nat) (boxes : list box) : list event :=
  match boxes with
  | [] => []
  | b :: rest =>
      if image_empty (crop img b) then []
      else ImWrite (person_path zip_path image_name i) (crop img b)
           :: crop_writes zip_path image_name img (S i) rest
  end.

Definition all_crops_written (img : image) (boxes : list box) : bool :=
  forallb (fun b => negb (image_empty (crop img b))) boxes.

(** What the detection branch does with the boxes of the first result. *)
Definition detection_part (zip_path image_name : str) (img : image)
    (results : list (list box)) : M unit :=
  let boxes := boxes_of results in
  if bool_decide (boxes = [])
  then imwrite (no_person_path zip_path image_name) img
  else (crop_writes zip_path image_name img 0 boxes,
        if all_crops_written img boxes then inr tt
        else inl (Exception (lit "cv2.error"))).

(** Neither a read of an archive member nor a load of the detector. *)
Definition after_read (ev : event) : Prop :=
  match ev with
  | ZipRead _ _ | LoadModel _ => False
  | _ => True
  end.

(** The archive without its members of other extensions. *)
Definition image_members (zip_ref : archive) : archive :=
  List.filter (fun m => is_image_file m.1) zip_ref.

(** What the name of a Person file is made of before [_person_<i>.jpg]. *)
Definition person_stem (zip_path image_name : str) : str :=
  (splitext (basename zip_path)).1 ++ lit "_" ++ (splitext (basename image_name)).1.

(** [concurrent.futures.process._process_worker]: a pool process runs the
    calls handed to it one at a time, each to its end, and goes on to the
    next whether the call returned or raised. *)
Fixpoint process_worker (E : externals) (calls : list str) : list event :=
  match calls with
  | [] => []
  | z :: rest => trace (process_zip_archive E z) ++ process_worker E rest
  end.

End Observe.

(** ** A small input directory, to run the definitions on *)

Module Demo.
Import Py posixpath Effects Pipeline Observe.

Definition px (n : N) : pixel := (n, n, n).

(** A 2x2 image whose top-left pixel is [n]. *)
Definition img2 (n : N) : image := [[px n; px 0]; [px 0; px 0]].

(** The decoder: no bytes raise, a leading zero byte is not an image, any
    other leading byte [n] decodes to [img2 n]. *)
Definition demo_imdecode (bytes : list Byte.byte) : exn + option image :=
  match bytes with
  | [] => inl (Exception (lit "cv2.error"))
  | b :: _ =>
      if bool_decide (Byte.to_N b = 0%N) then inr None
      else inr (Some (img2 (Byte.to_N b)))
  end.

(** The detector, by the top-left pixel: 1 gives one box, 2 two boxes,
    3 a box without width followed by a proper one, 9 raises, anything
    else no box. *)
Definition demo_predict (img : image) : exn + list (list box) :=
  match img with
  | ((1%N, _, _) :: _) :: _ => inr [[Box 0 0 1 1]]
  | ((2%N, _, _) :: _) :: _ => inr [[Box 0 0 1 1; Box 1 0 2 2]]
  | ((3%N, _, _) :: _) :: _ => inr [[Box 0 0 0 1; Box 0 0 1 1]]
  | ((9%N, _, _) :: _) :: _ => inl (Exception (lit "RuntimeError"))
  | _ => inr [[]]
  end.

Definition batch1 : archive :=
  [ (lit "x.jpg", inr [Byte.x01]);
    (lit "notes.txt", inr [Byte.x01]);
    (lit "d1/scene.png", inr [Byte.x04]);
    (lit "d2/scene.png", inr [Byte.x05]);
    (lit "broken.jpeg", inr [Byte.x00]);
    (lit "pair.JPG", inr [Byte.x02]) ].

Definition batch2 : archive :=
  [ (lit "thin.jpg", inr [Byte.x03]);
    (lit "crc.png", inl (BadZipFile (lit "Bad CRC-32")));
    (lit "late.jpg", inr [Byte.x04]) ].

Definition demo_ZipFile (zip_path : str) : exn + archive :=
  if bool_decide (zip_path = lit "zip/batch1.zip") then inr batch1
  else if bool_decide (zip_path = lit "zip/batch2.zip") then inr batch2
  else if bool_decide (zip_path = lit "zip/corrupt.zip")
       then inl (BadZipFile (lit "File is not a zip file"))
  else inl (Exception (lit "PermissionError")).

Definition demo (zip_files : list str) : externals :=
  Externals demo_ZipFile demo_imdecode demo_predict zip_files.

Definition demo_all : externals :=
  demo [lit "zip/batch1.zip"; lit "zip/corrupt.zip"; lit "zip/batch2.zip"; lit "zip/locked.zip"].

Definition empty_fs : filesystem := Filesystem ∅ ∅.

End Demo.

(** ** What becomes of each member, and of the output tree *)

Module Account.
Import Py posixpath Effects Pipeline Observe.

(** The image a member gives, when it is read and decoded. *)
Definition decoded (E : externals) (zip_ref : archive) (image_name : str)
  : option image :=
  match getinfo zip_ref image_name with
  | Some (inr img_bytes) =>
      match imdecode E img_bytes with
      | inr (Some img) => Some img
      | _ => None
      end
  | _ => None
  end.

(** The boxes of the first result for a member, when the member is decoded
    and the detector returns. *)
Definition boxes_found (E : externals) (zip_ref : archive) (image_name : str)
  : list box :=
  match decoded E zip_ref image_name with
  | Some img =>
      match predict E img with
      | inr results => boxes_of results
      | inl _ => []
      end
  | None => []
  end.

(** The exception that leaves the body of the inner [try] before the
    detector has answered: from [zip_ref.read], from [cv2.imdecode] or from
    [model.predict]. *)
Definition raised_before_detection (E : externals) (zip_ref : archive)
    (image_name : str) : option exn :=
  match getinfo zip_ref image_name with
  | None => Some (Exception (lit "KeyError"))
  | Some (inl e) => Some e
  | Some (inr img_bytes) =>
      match imdecode E img_bytes with
      | inl e => Some e
      | inr None => None
      | inr (Some img) =>
          match predict E img with
          | inl e => Some e
          | inr _ => None
          end
      end
  end.

(** The member was decoded and the body of the inner [try] ran to its end. *)
Definition processed_cleanly (E : externals) (zip_path : str)
    (zip_ref : archive) (image_name : str) : bool :=
  match decoded E zip_ref image_name,
        outcome (process_image_body E zip_path zip_ref image_name) with
  | Some _, inr _ => true
  | _, _ => false
  end.

(** The images the detector was called on. *)
Definition inferences (t : list event) : list image :=
  omap (fun ev => match ev with Predict img => Some img | _ => None end) t.

(** The crops of the boxes that come before the first box whose crop is
    empty. *)
Fixpoint crops_before_failure (img : image) (boxes : list box) : list image :=
  match boxes with
  | [] => []
  | b :: rest =>
      if image_empty (crop img b) then []
      else crop img b :: crops_before_failure img rest
  end.

(** [h] rows of [w] pixels each. *)
Definition has_shape (h w : nat) (img : image) : bool :=
  bool_decide (length img = h) && forallb (fun row => bool_decide (length row = w)) img.

(** A box of at least one pixel that lies inside an image of [h] rows and
    [w] columns. *)
Definition box_inside (h w : nat) (b : box) : bool :=
  (0 <=? x1 b) && (x1 b <? x2 b) && (x2 b <=? Z.of_nat w)
  && (0 <=? y1 b) && (y1 b <? y2 b) && (y2 b <=? Z.of_nat h).


(** The events a turn of the image loop for [image_name] can leave. *)
Definition image_event (zip_path image_name : str) (ev : event) : Prop :=
  match ev with
  | ZipRead z n => z = zip_path /\ n = image_name
  | Predict _ => True
  | ImWrite p _ =>
      (exists i, p = person_path zip_path image_name i) \/
      p = no_person_path zip_path image_name
  | Log WARNING m => m = MsgCouldNotDecode image_name zip_path
  | Log ERROR m => exists e, m = MsgErrorProcessing image_name zip_path e
  | _ => False
  end.

(** The archives of a batch write under names of their own: no name is
    written by two of them. *)
Fixpoint writes_apart (E : externals) (zip_files : list str) : Prop :=
  match zip_files with
  | [] => True
  | z :: rest =>
      Forall (fun y => written_names (trace (process_zip_archive E z))
                       ## written_names (trace (process_zip_archive E y))) rest
      /\ writes_apart E rest
  end.

End Account.

(** ** Two more archives for the small input directory *)

Module Demo2.
Import Py posixpath Effects Pipeline Observe Demo.

(** The detector of [Demo], and for the top-left pixel 7 three boxes, the
    second one without width. *)
Definition demo2_predict (img : image) : exn + list (list box) :=
  match img with
  | ((7%N, _, _) :: _) :: _ => inr [[Box 0 0 1 1; Box 1 0 1 2; Box 1 1 2 2]]
  | _ => demo_predict img
  end.

(** An archive whose images are all decoded and processed to the end. *)
Definition clean : archive :=
  [ (lit "x.jpg", inr [Byte.x01]);
    (lit "notes.txt", inr [Byte.x01]);
    (lit "d1/scene.png", inr [Byte.x04]);
    (lit "pair.JPG", inr [Byte.x02]) ].

Definition trio : archive :=
  [ (lit "trio.png", inr [Byte.x07]) ].

Definition demo2_ZipFile (zip_path : str) : exn + archive :=
  if bool_decide (zip_path = lit "zip/clean.zip") then inr clean
  else if bool_decide (zip_path = lit "zip/trio.zip") then inr trio
  else demo_ZipFile zip_path.

Definition demo2 : externals :=
  Externals demo2_ZipFile demo_imdecode demo2_predict
    [lit "zip/clean.zip"; lit "zip/trio.zip"].

End Demo2.

(** ** Computations: traces and outcomes *)

Module EffectFacts.
Import Effects.

Lemma bind_unfold {A B} (m : M A) (k : A -> M B) :
  bind m k =
    match outcome m with
    | inl e => (trace m, inl e)
    | inr a => (trace m ++ trace (k a), outcome (k a))
    end.
Proof.
  destruct m as [t [e | a]]; simpl; [reflexivity |].
  destruct (k a); reflexivity.
Qed.

Lemma outcome_bind {A B} (m : M A) (k : A -> M B) :
  outcome (bind m k) =
    match outcome m with inl e => inl e | inr a => outcome (k a) end.
Proof. rewrite bind_unfold. destruct (outcome m); reflexivity. Qed.

Lemma trace_bind_ok {A B} (m : M A) (k : A -> M B) a :
  outcome m = inr a -> trace (bind m k) = trace m ++ trace (k a).
Proof. intros H. rewrite bind_unfold, H. reflexivity. Qed.

Lemma try_except_unfold {A} (body : M A) (handler : exn -> M A) :
  try_except body handler =
    match outcome body with
    | inl e => (trace body ++ trace (handler e), outcome (handler e))
    | inr a => (trace body, inr a)
    end.
Proof.
  destruct body as [t [e | a]]; simpl; [| reflexivity].
  destruct (handler e); reflexivity.
Qed.

Lemma surjective_M {A} (m : M A) : m = (trace m, outcome m).
Proof. destruct m; reflexivity. Qed.

Lemma bind_ret {A B} (a : A) (k : A -> M B) : bind (ret a) k = k a.
Proof. unfold bind, ret. destruct (k a); reflexivity. Qed.

Lemma bind_lift_ok {A B} (a : A) (k : A -> M B) : bind (lift (inr a)) k = k a.
Proof. apply bind_ret. Qed.

Lemma bind_lift_raise {A B} (e : exn) (k : A -> M B) :
  bind (lift (inl e)) k = raise e.
Proof. reflexivity. Qed.

Lemma bind_raise {A B} (e : exn) (k : A -> M B) : bind (raise e) k = raise e.
Proof. reflexivity. Qed.

Lemma bind_emit {B} (ev : event) (k : unit -> M B) :
  bind (emit ev) k = (ev :: trace (k tt), outcome (k tt)).
Proof. unfold bind, emit. destruct (k tt); reflexivity. Qed.

End EffectFacts.

(** ** The control flow of the worker and of the pool *)

Module FlowFacts.
Import Py posixpath Effects Pipeline Observe EffectFacts.
Local Open Scope py_scope.

Section WithExternals.
Context (E : externals).

(** The inner handler catches whatever the body raises. *)
Lemma process_image_returns zip_path zip_ref image_name :
  outcome (process_image E zip_path zip_ref image_name) = inr tt.
Proof.
  unfold process_image. rewrite try_except_unfold.
  destruct (outcome (process_image_body E zip_path zip_ref image_name)) as [e | []];
    reflexivity.
Qed.

Lemma process_image_trace zip_path zip_ref image_name :
  trace (process_image E zip_path zip_ref image_name) =
    trace (process_image_body E zip_path zip_ref image_name) ++
    match outcome (process_image_body E zip_path zip_ref image_name) with
    | inl e => [Log ERROR (MsgErrorProcessing image_name zip_path e)]
    | inr _ => []
    end.
Proof.
  unfold process_image. rewrite try_except_unfold.
  destruct (outcome (process_image_body E zip_path zip_ref image_name));
    simpl; [reflexivity | by rewrite app_nil_r].
Qed.

Lemma for_each_returns {A} (body : A -> M unit) (l : list A) :
  (forall x, outcome (body x) = inr tt) ->
  for_each l body = (List.flat_map (fun x => trace (body x)) l, inr tt).
Proof.
  intros Hbody. induction l as [| x l IH]; [reflexivity |].
  cbn [for_each List.flat_map]. rewrite bind_unfold, Hbody, IH. reflexivity.
Qed.

Lemma for_each_images zip_path zip_ref (names : list str) :
  for_each names (process_image E zip_path zip_ref) =
    (List.flat_map (fun n => trace (process_image E zip_path zip_ref n)) names,
     inr tt).
Proof. apply for_each_returns. intros n. apply process_image_returns. Qed.

(** The worker, by what opening the archive gives. *)
Lemma process_zip_archive_unfold zip_path :
  process_zip_archive E zip_path =
    (LoadModel (lit "yolov8s.pt") ::
     match ZipFile E zip_path with
     | inl (BadZipFile _) => [Log ERROR (MsgBadZip zip_path)]
     | inl (Exception msg) => [Log ERROR (MsgUnhandled zip_path (Exception msg))]
     | inr zip_ref =>
         List.flat_map (fun n => trace (process_image E zip_path zip_ref n))
           (List.filter is_image_file (namelist zip_ref))
     end,
     inr zip_path).
Proof.
  unfold process_zip_archive, process_zip_archive_body.
  destruct (ZipFile E zip_path) as [[msg | msg] | zip_ref]; try reflexivity.
  rewrite bind_emit, bind_lift_ok, for_each_images.
  cbn [try_except bind ret trace outcome fst snd]. by rewrite app_nil_r.
Qed.

Lemma process_zip_archive_returns zip_path :
  outcome (process_zip_archive E zip_path) = inr zip_path.
Proof. by rewrite process_zip_archive_unfold. Qed.

Lemma executor_map_unfold (zip_files : list str) :
  executor_map E zip_files =
    (List.flat_map (fun z => trace (process_zip_archive E z)) zip_files,
     inr zip_files).
Proof.
  induction zip_files as [| z rest IH]; [reflexivity |].
  cbn [executor_map List.flat_map].
  rewrite bind_unfold, process_zip_archive_returns.
  rewrite bind_unfold, IH. cbn [outcome trace fst snd ret].
  by rewrite app_nil_r.
Qed.

Lemma process_worker_is_executor_map (calls : list str) :
  process_worker E calls = trace (executor_map E calls).
Proof.
  rewrite executor_map_unfold. cbn [trace fst].
  induction calls as [| z rest IH]; [reflexivity |].
  cbn [process_worker List.flat_map]. by rewrite IH.
Qed.

Lemma main_unfold :
  main E =
    (Log INFO MsgCreatingDirs :: MakeDirs PERSON_DIR :: MakeDirs NO_PERSON_DIR ::
     match glob_zip_files E with
     | [] => [Log ERROR (MsgNoZipFiles INPUT_DIR)]
     | zs =>
         Log INFO (MsgFound (length zs)) ::
         List.flat_map (fun z => trace (process_zip_archive E z)) zs ++
         [Log INFO MsgComplete]
     end,
     inr tt).
Proof.
  unfold main. destruct (glob_zip_files E) as [| z zs] eqn:Hglob.
  - reflexivity.
  - rewrite bool_decide_eq_false_2 by discriminate.
    rewrite !bind_emit, (bind_unfold (executor_map _ _)), executor_map_unfold.
    reflexivity.
Qed.

End WithExternals.
End FlowFacts.

(** ** One image: the body of the inner [try] *)

Module ImageFacts.
Import Py posixpath Effects Pipeline Observe EffectFacts FlowFacts.
Local Open Scope py_scope.

Lemma person_loop_unfold zip_path image_name img boxes : forall i person_detected,
  person_loop zip_path image_name img i boxes person_detected =
    (crop_writes zip_path image_name img i boxes,
     if all_crops_written img boxes
     then inr (person_detected || bool_decide (boxes <> []))
     else inl (Exception (lit "cv2.error"))).
Proof.
  induction boxes as [| b rest IH]; intros i pd.
  - cbn. by rewrite orb_false_r.
  - cbn [person_loop crop_writes all_crops_written forallb]. unfold imwrite.
    fold (person_path zip_path image_name i).
    destruct (image_empty (crop img b)); [reflexivity |].
    rewrite bind_emit, IH. cbn [trace outcome fst snd negb andb].
    fold (all_crops_written img rest).
    destruct (all_crops_written img rest); [| reflexivity].
    rewrite (bool_decide_eq_true_2 (b :: rest <> [])) by discriminate.
    by rewrite orb_true_r.
Qed.

Lemma crop_writes_all zip_path image_name img boxes : forall i,
  all_crops_written img boxes = true ->
  crop_writes zip_path image_name img i boxes =
    imap (fun k b => ImWrite (person_path zip_path image_name (i + k)) (crop img b))
      boxes.
Proof.
  induction boxes as [| b rest IH]; intros i Hall; [reflexivity |].
  cbn [all_crops_written forallb] in Hall. apply andb_true_iff in Hall as [Hb Hrest].
  cbn [crop_writes imap]. apply negb_true_iff in Hb. rewrite Hb.
  rewrite Nat.add_0_r. f_equal. rewrite (IH (S i) Hrest).
  apply imap_ext. intros k x _. cbn. by rewrite Nat.add_succ_r.
Qed.

Lemma process_image_body_unfold (E : externals) zip_path zip_ref image_name :
  process_image_body E zip_path zip_ref image_name =
    match getinfo zip_ref image_name with
    | None => ([ZipRead zip_path image_name], inl (Exception (lit "KeyError")))
    | Some (inl e) => ([ZipRead zip_path image_name], inl e)
    | Some (inr img_bytes) =>
        match imdecode E img_bytes with
        | inl e => ([ZipRead zip_path image_name], inl e)
        | inr None =>
            ([ZipRead zip_path image_name;
              Log WARNING (MsgCouldNotDecode image_name zip_path)], inr tt)
        | inr (Some img) =>
            match predict E img with
            | inl e => ([ZipRead zip_path image_name; Predict img], inl e)
            | inr results =>
                let d := detection_part zip_path image_name img results in
                (ZipRead zip_path image_name :: Predict img :: trace d, outcome d)
            end
        end
    end.
Proof.
  unfold process_image_body, zip_read.
  destruct (getinfo zip_ref image_name) as [[e | img_bytes] |]; try reflexivity.
  rewrite (bind_unfold (bind _ _)), bind_emit. cbn [trace outcome fst snd lift].
  destruct (imdecode E img_bytes) as [e | [img |]]; try reflexivity.
  rewrite bind_lift_ok, bind_emit. cbn [app].
  destruct (predict E img) as [e | results]; [reflexivity |].
  rewrite bind_lift_ok. unfold detection_part.
  fold (no_person_path zip_path image_name).
  destruct results as [| boxes others]; cbn [boxes_of].
  - rewrite bind_ret. reflexivity.
  - destruct boxes as [| b rest].
    + rewrite bool_decide_eq_false_2 by (intros H; by apply H).
      rewrite bind_ret. reflexivity.
    + rewrite bool_decide_eq_true_2 by discriminate.
      rewrite bool_decide_eq_false_2 by discriminate.
      rewrite person_loop_unfold, bind_unfold. cbn [trace outcome fst snd].
      destruct (all_crops_written img (b :: rest)); [| reflexivity].
      cbn [orb negb ret trace fst snd]. by rewrite app_nil_r.
Qed.

End ImageFacts.

(** ** Failures stay with the archive or the image they belong to *)

Module ErrorHandling.
Import Py posixpath Effects Pipeline Observe EffectFacts FlowFacts ImageFacts.

(** C5. An archive that cannot be opened ([zipfile.ZipFile] raises
    [BadZipFile] or any other exception) gives no image write, leaves the
    output tree as it was, logs exactly one record, at level ERROR, and the
    worker returns its path instead of raising; in a batch, the archives
    before and after it are processed as they would be without it. *)
Theorem corrupt_archive_is_logged_and_skipped
    (E : externals) (before after : list str) (zip_path : str) (e : exn)
    (fs : filesystem) :
  ZipFile E zip_path = inl e ->
  writes (trace (process_zip_archive E zip_path)) = [] /\
  run_trace (trace (process_zip_archive E zip_path)) fs = fs /\
  logged (trace (process_zip_archive E zip_path)) =
    [(ERROR, match e with
             | BadZipFile _ => MsgBadZip zip_path
             | Exception _ => MsgUnhandled zip_path e
             end)] /\
  outcome (process_zip_archive E zip_path) = inr zip_path /\
  executor_map E (before ++ zip_path :: after) =
    (trace (executor_map E before)
       ++ trace (process_zip_archive E zip_path)
       ++ trace (executor_map E after),
     inr (before ++ zip_path :: after)).
Proof.
  intros Hopen.
  assert (Ht : trace (process_zip_archive E zip_path) =
               [LoadModel (lit "yolov8s.pt");
                Log ERROR match e with
                          | BadZipFile _ => MsgBadZip zip_path
                          | Exception _ => MsgUnhandled zip_path e
                          end]).
  { rewrite process_zip_archive_unfold, Hopen. by destruct e. }
  rewrite !executor_map_unfold, process_zip_archive_returns, Ht.
  cbn [trace fst]. rewrite flat_map_app. cbn [List.flat_map]. rewrite Ht.
  by destruct fs.
Qed.

(** C6. A member whose bytes [cv2.imdecode] turns into [None] gives no
    image write, exactly one log record, at level WARNING, and the loop
    goes on: the members before and after it leave the events they would
    leave without it. *)
Theorem undecodable_image_is_warned_and_skipped
    (E : externals) (zip_path : str) (zip_ref : archive)
    (before after : list str) (image_name : str) (img_bytes : list Byte.byte) :
  getinfo zip_ref image_name = Some (inr img_bytes) ->
  imdecode E img_bytes = inr None ->
  writes (trace (process_image E zip_path zip_ref image_name)) = [] /\
  logged (trace (process_image E zip_path zip_ref image_name)) =
    [(WARNING, MsgCouldNotDecode image_name zip_path)] /\
  for_each (before ++ image_name :: after) (process_image E zip_path zip_ref) =
    (trace (for_each before (process_image E zip_path zip_ref))
       ++ trace (process_image E zip_path zip_ref image_name)
       ++ trace (for_each after (process_image E zip_path zip_ref)),
     inr tt).
Proof.
  intros Hinfo Hdecode.
  rewrite !for_each_images, process_image_trace, process_image_body_unfold.
  rewrite Hinfo, Hdecode. cbn [trace outcome fst snd].
  rewrite flat_map_app. cbn [List.flat_map].
  rewrite process_image_trace, process_image_body_unfold, Hinfo, Hdecode.
  done.
Qed.

(** C7. [main] returns without raising whatever the input directory holds
    and whatever the archive reader, the decoder and the detector do:
    every call of the worker returns its path, every turn of the loop over
    the images returns, so the loop reaches every image; and with no
    archive in the input directory the run logs one ERROR record and
    returns. *)
Theorem pipeline_never_raises
    (E : externals) (zip_path : str) (zip_ref : archive)
    (image_names : list str) :
  outcome (main E) = inr tt /\
  outcome (process_zip_archive E zip_path) = inr zip_path /\
  for_each image_names (process_image E zip_path zip_ref) =
    (List.flat_map (fun n => trace (process_image E zip_path zip_ref n))
       image_names,
     inr tt) /\
  main (Externals (ZipFile E) (imdecode E) (predict E) []) =
    ([Log INFO MsgCreatingDirs; MakeDirs PERSON_DIR; MakeDirs NO_PERSON_DIR;
      Log ERROR (MsgNoZipFiles INPUT_DIR)],
     inr tt).
Proof.
  split; [by rewrite main_unfold |].
  split; [apply process_zip_archive_returns |].
  split; [apply for_each_images | reflexivity].
Qed.

End ErrorHandling.

(** ** Names: [rfind], [basename], [splitext], [join] and the output paths *)

Module PathFacts.
Import Py posixpath Pipeline Observe.

(** A decidable fact about concrete names, settled by evaluation. *)
Ltac by_evaluation :=
  match goal with
  | |- ?P => apply (bool_decide_unpack P); vm_compute; exact I
  end.

Lemma clamp_index_inside (n : nat) (i : Z) :
  0 <= i <= Z.of_nat n -> clamp_index n i = Z.to_nat i.
Proof.
  intros Hi. unfold clamp_index.
  destruct (Z.ltb_spec i 0); [lia |]. f_equal. lia.
Qed.

(** [rfind] returns [-1] when the character is absent, and otherwise the
    index of its last occurrence. *)
Lemma rfind_from_spec (c : ascii) (s : str) : forall i last,
  ((c ∉ s) /\ rfind_from c s i last = last) \/
  (exists k : nat, s !! k = Some c /\ (c ∉ drop (S k) s) /\
                   rfind_from c s i last = i + Z.of_nat k).
Proof.
  induction s as [| a s IH]; intros i last.
  - left. split; [apply not_elem_of_nil | reflexivity].
  - cbn [rfind_from].
    destruct (IH (i + 1) (if bool_decide (a = c) then i else last))
      as [[Hn Hr] | (k & Hk & Hd & Hr)].
    + rewrite Hr. case_bool_decide as Hac.
      * right. exists 0%nat. subst a. repeat split; [done | lia].
      * left. split; [| reflexivity]. apply not_elem_of_cons. split; congruence.
    + right. exists (S k). repeat split; [done | done | lia].
Qed.

Lemma rfind_spec (c : ascii) (s : str) :
  ((c ∉ s) /\ rfind c s = -1) \/
  (exists k : nat, s !! k = Some c /\ (c ∉ drop (S k) s) /\ rfind c s = Z.of_nat k).
Proof.
  unfold rfind. destruct (rfind_from_spec c s 0 (-1)) as [H | (k & ? & ? & Hr)];
    [by left | right; exists k; repeat split; try done; lia].
Qed.

(** [basename p] is what follows the last separator of [p]. *)
Lemma basename_spec (p : str) :
  ((sep ∉ p) /\ basename p = p) \/
  (exists k : nat, p !! k = Some sep /\ basename p = drop (S k) p /\
                   sep ∉ drop (S k) p).
Proof.
  unfold basename, slice_from.
  destruct (rfind_spec sep p) as [[Hn Hr] | (k & Hk & Hd & Hr)]; rewrite Hr.
  - left. split; [done |]. rewrite clamp_index_inside by lia. reflexivity.
  - right. exists k. apply lookup_lt_Some in Hk as Hlt.
    rewrite clamp_index_inside by lia.
    replace (Z.to_nat (Z.of_nat k + 1)) with (S k) by lia. done.
Qed.

Lemma basename_no_sep (p : str) : sep ∉ basename p.
Proof.
  destruct (basename_spec p) as [[Hn ->] | (k & _ & -> & Hd)]; done.
Qed.

Lemma basename_suffix (p : str) : exists d, p = d ++ basename p.
Proof.
  destruct (basename_spec p) as [[_ ->] | (k & _ & -> & _)].
  - by exists [].
  - exists (take (S k) p). by rewrite take_drop.
Qed.

(** [splitext] cuts its argument in two. *)
Lemma splitext_app (p : str) : (splitext p).1 ++ (splitext p).2 = p.
Proof.
  unfold splitext.
  destruct (_ && _); cbn [fst snd]; unfold slice_to, slice_from.
  - apply take_drop.
  - rewrite clamp_index_inside by lia. cbn. apply app_nil_r.
Qed.

Lemma splitext_root_no (c : ascii) (p : str) : c ∉ p -> c ∉ (splitext p).1.
Proof.
  intros Hc Hin. apply Hc. rewrite <- (splitext_app p).
  apply elem_of_app. by left.
Qed.

(** [f"{i}"] is made of digits, and tells the integers apart. *)
Lemma format_int_digits (i : nat) :
  Forall (fun c => (48 <= nat_of_ascii c <= 57)%nat) (format_int i).
Proof.
  unfold format_int. generalize (Nat.to_uint i). intros d.
  induction d; cbn [NilEmpty.string_of_uint list_ascii_of_string];
    first [apply List.Forall_nil
          | apply List.Forall_cons; [vm_compute; lia | exact IHd]].
Qed.

Lemma format_int_no (c : ascii) (i : nat) :
  ~ (48 <= nat_of_ascii c <= 57)%nat -> c ∉ format_int i.
Proof.
  intros Hc Hin. apply Hc.
  exact (proj1 (Forall_forall _ _) (format_int_digits i) c Hin).
Qed.

Lemma format_int_inj (i j : nat) : format_int i = format_int j -> i = j.
Proof.
  unfold format_int. intros H.
  apply (f_equal string_of_list_ascii) in H.
  rewrite !string_of_list_ascii_of_string in H.
  apply (f_equal NilEmpty.uint_of_string) in H.
  rewrite !NilEmpty.usu in H. injection H as H.
  apply (f_equal Nat.of_uint) in H.
  by rewrite !DecimalNat.Unsigned.of_to in H.
Qed.

Lemma zip_name_no_sep (zip_path : str) :
  sep ∉ (splitext (basename zip_path)).1.
Proof. apply splitext_root_no, basename_no_sep. Qed.

Lemma person_filename_no_sep zip_path image_name i :
  sep ∉ person_filename zip_path image_name i.
Proof.
  unfold person_filename. rewrite !not_elem_of_app.
  repeat split; try apply zip_name_no_sep.
  - by_evaluation.
  - by_evaluation.
  - apply format_int_no. vm_compute. lia.
  - by_evaluation.
Qed.

Lemma no_person_filename_no_sep zip_path image_name :
  sep ∉ no_person_filename zip_path image_name.
Proof.
  unfold no_person_filename. rewrite !not_elem_of_app.
  repeat split; [apply zip_name_no_sep | by_evaluation
                | apply basename_no_sep].
Qed.

(** Joining a directory and a file name without separator. *)
Lemma join_file (d f : str) :
  d <> [] -> endswith d [sep] = false -> sep ∉ f -> join d f = d ++ sep :: f.
Proof.
  intros Hd Hend Hf. unfold join.
  rewrite (bool_decide_eq_false_2 (d = [])), Hend by done. cbn [orb].
  destruct f as [| c f]; [reflexivity |].
  rewrite bool_decide_eq_false_2; [reflexivity |].
  intros ->. apply Hf. by left.
Qed.

Lemma person_path_unfold zip_path image_name i :
  person_path zip_path image_name i =
    lit "output/Person/" ++ person_filename zip_path image_name i.
Proof.
  unfold person_path. rewrite join_file;
    [reflexivity | discriminate | reflexivity | apply person_filename_no_sep].
Qed.

Lemma no_person_path_unfold zip_path image_name :
  no_person_path zip_path image_name =
    lit "output/No_Person/" ++ no_person_filename zip_path image_name.
Proof.
  unfold no_person_path. rewrite join_file;
    [reflexivity | discriminate | reflexivity | apply no_person_filename_no_sep].
Qed.

Lemma person_path_in_person_dir zip_path image_name i :
  in_dir PERSON_DIR (person_path zip_path image_name i) = true.
Proof.
  rewrite person_path_unfold. unfold in_dir.
  apply andb_true_iff. split; apply bool_decide_eq_true_2.
  - reflexivity.
  - apply person_filename_no_sep.
Qed.

Lemma no_person_path_in_no_person_dir zip_path image_name :
  in_dir NO_PERSON_DIR (no_person_path zip_path image_name) = true.
Proof.
  rewrite no_person_path_unfold. unfold in_dir.
  apply andb_true_iff. split; apply bool_decide_eq_true_2.
  - reflexivity.
  - apply no_person_filename_no_sep.
Qed.

Lemma person_path_not_in_no_person_dir zip_path image_name i :
  in_dir NO_PERSON_DIR (person_path zip_path image_name i) = false.
Proof.
  rewrite person_path_unfold. unfold in_dir.
  apply andb_false_iff. left. apply bool_decide_eq_false_2.
  intros H. apply (f_equal (take 8)) in H. discriminate H.
Qed.

Lemma no_person_path_not_in_person_dir zip_path image_name :
  in_dir PERSON_DIR (no_person_path zip_path image_name) = false.
Proof.
  rewrite no_person_path_unfold. unfold in_dir.
  apply andb_false_iff. left. apply bool_decide_eq_false_2.
  intros H. apply (f_equal (take 8)) in H. discriminate H.
Qed.

Lemma person_path_not_no_person_path zip_path image_name i zip_path' image_name' :
  person_path zip_path image_name i <> no_person_path zip_path' image_name'.
Proof.
  rewrite person_path_unfold, no_person_path_unfold.
  intros H. apply (f_equal (take 8)) in H. discriminate H.
Qed.

(** Two lists cut at the first occurrence of [x] are cut alike. *)
Lemma cut_at_first {A} (x : A) (l1 l2 r1 r2 : list A) :
  x ∉ l1 -> x ∉ l2 -> l1 ++ x :: r1 = l2 ++ x :: r2 -> l1 = l2 /\ r1 = r2.
Proof.
  revert l2. induction l1 as [| a l1 IH]; intros [| b l2] H1 H2 H.
  - by injection H as ->.
  - injection H as -> _. exfalso. apply H2. by left.
  - injection H as -> _. exfalso. apply H1. by left.
  - injection H as -> H. apply not_elem_of_cons in H1 as [_ H1].
    apply not_elem_of_cons in H2 as [_ H2].
    destruct (IH l2 H1 H2 H) as [-> ->]. done.
Qed.

(** And at the last occurrence. *)
Lemma cut_at_last {A} (x : A) (l1 l2 r1 r2 : list A) :
  x ∉ r1 -> x ∉ r2 -> l1 ++ x :: r1 = l2 ++ x :: r2 -> l1 = l2 /\ r1 = r2.
Proof.
  intros H1 H2 H. apply (f_equal reverse) in H.
  rewrite !reverse_app, !reverse_cons, <- !app_assoc in H. cbn [app] in H.
  apply cut_at_first in H as [Hr Hl].
  - split.
    + by rewrite <- (reverse_involutive l1), Hl, reverse_involutive.
    + by rewrite <- (reverse_involutive r1), Hr, reverse_involutive.
  - by rewrite elem_of_reverse.
  - by rewrite elem_of_reverse.
Qed.

End PathFacts.

(** ** One decoded image: crops in Person, or the whole image in No_Person *)

Module Detection.
Import Py posixpath Effects Pipeline Observe EffectFacts FlowFacts ImageFacts PathFacts.

Lemma writes_app (t u : list event) : writes (t ++ u) = writes t ++ writes u.
Proof. apply omap_app. Qed.

Lemma writes_crops zip_path image_name img boxes : forall i,
  writes (imap (fun k b => ImWrite (person_path zip_path image_name (i + k))
                                   (crop img b)) boxes) =
    imap (fun k b => (person_path zip_path image_name (i + k), crop img b)) boxes.
Proof.
  induction boxes as [| b rest IH]; intros i; [reflexivity |].
  cbn [imap]. change (writes (?ev :: ?t)) with (writes [ev] ++ writes t).
  cbn [writes omap app]. f_equal.
  transitivity
    (writes (imap (fun k b => ImWrite (person_path zip_path image_name (S i + k))
                                      (crop img b)) rest)).
  - f_equal. apply imap_ext. intros k x _. cbn. by rewrite Nat.add_succ_r.
  - rewrite IH. apply imap_ext. intros k x _. cbn. by rewrite Nat.add_succ_r.
Qed.

Lemma paths_of_crops zip_path image_name img boxes : forall i,
  map fst (imap (fun k b => (person_path zip_path image_name (i + k), crop img b))
             boxes) =
    map (person_path zip_path image_name) (seq i (length boxes)).
Proof.
  induction boxes as [| b rest IH]; intros i; [reflexivity |].
  cbn [imap map length seq fst]. rewrite Nat.add_0_r. f_equal.
  rewrite <- (IH (S i)). f_equal.
  apply imap_ext. intros k x _. cbn. by rewrite Nat.add_succ_r.
Qed.

Lemma person_path_index_inj zip_path image_name (i j : nat) :
  person_path zip_path image_name i = person_path zip_path image_name j -> i = j.
Proof.
  rewrite !person_path_unfold. unfold person_filename. intros H.
  repeat apply app_inv_head in H.
  apply app_inv_tail in H. by apply format_int_inj.
Qed.

Lemma filter_all {A} (f : A -> bool) (l : list A) :
  (forall x, In x l -> f x = true) -> List.filter f l = l.
Proof.
  induction l as [| a l IH]; intros H; [reflexivity |].
  cbn. rewrite (H a) by (by left). f_equal. apply IH.
  intros x Hx. apply H. by right.
Qed.

Lemma filter_none {A} (f : A -> bool) (l : list A) :
  (forall x, In x l -> f x = false) -> List.filter f l = [].
Proof.
  induction l as [| a l IH]; intros H; [reflexivity |].
  cbn. rewrite (H a) by (by left). apply IH.
  intros x Hx. apply H. by right.
Qed.

(** The writes of one turn of the loop, for an image that was read and
    decoded, according to how the body of the [try] ended. *)
Lemma decoded_image_trace (E : externals) zip_path zip_ref image_name img_bytes img
    results :
  getinfo zip_ref image_name = Some (inr img_bytes) ->
  imdecode E img_bytes = inr (Some img) ->
  predict E img = inr results ->
  process_image_body E zip_path zip_ref image_name =
    (ZipRead zip_path image_name :: Predict img
       :: trace (detection_part zip_path image_name img results),
     outcome (detection_part zip_path image_name img results)).
Proof.
  intros Hinfo Hdecode Hpredict.
  by rewrite process_image_body_unfold, Hinfo, Hdecode, Hpredict.
Qed.

Lemma no_exception_predicted (E : externals) zip_path zip_ref image_name img_bytes img :
  getinfo zip_ref image_name = Some (inr img_bytes) ->
  imdecode E img_bytes = inr (Some img) ->
  outcome (process_image_body E zip_path zip_ref image_name) = inr tt ->
  exists results,
    predict E img = inr results /\
    outcome (detection_part zip_path image_name img results) = inr tt.
Proof.
  intros Hinfo Hdecode. rewrite process_image_body_unfold, Hinfo, Hdecode.
  destruct (predict E img) as [e | results]; [discriminate |].
  intros H. by exists results.
Qed.

Lemma detection_part_writes zip_path image_name img results :
  outcome (detection_part zip_path image_name img results) = inr tt ->
  writes (trace (detection_part zip_path image_name img results)) =
    if bool_decide (boxes_of results = [])
    then [(no_person_path zip_path image_name, img)]
    else imap (fun i b => (person_path zip_path image_name i, crop img b))
           (boxes_of results).
Proof.
  unfold detection_part. case_bool_decide as Hboxes.
  - unfold imwrite. destruct (image_empty img); [discriminate | reflexivity].
  - cbn [trace outcome fst snd].
    destruct (all_crops_written img (boxes_of results)) eqn:Hall; [| discriminate].
    intros _. rewrite crop_writes_all by done. apply (writes_crops _ _ _ _ 0%nat).
Qed.

Lemma image_writes (E : externals) zip_path zip_ref image_name img_bytes img :
  getinfo zip_ref image_name = Some (inr img_bytes) ->
  imdecode E img_bytes = inr (Some img) ->
  outcome (process_image_body E zip_path zip_ref image_name) = inr tt ->
  exists results,
    predict E img = inr results /\
    writes (trace (process_image E zip_path zip_ref image_name)) =
      if bool_decide (boxes_of results = [])
      then [(no_person_path zip_path image_name, img)]
      else imap (fun i b => (person_path zip_path image_name i, crop img b))
             (boxes_of results).
Proof.
  intros Hinfo Hdecode Hok.
  destruct (no_exception_predicted E _ _ _ _ _ Hinfo Hdecode Hok)
    as (results & Hpredict & Hpart).
  exists results. split; [done |].
  rewrite process_image_trace, Hok, app_nil_r.
  rewrite (decoded_image_trace E _ _ _ _ _ _ Hinfo Hdecode Hpredict).
  cbn [trace fst]. by apply detection_part_writes.
Qed.

(** C1. A member that is read and decoded, and whose processing raises no
    exception, gives exactly one of two outcomes. Either the detector
    returned boxes: then there is one file per box, all under different
    names, all in Person, and none in No_Person. Or it returned no box:
    then there is one file in No_Person and none in Person. *)
Theorem decoded_image_has_exactly_one_outcome
    (E : externals) (zip_path : str) (zip_ref : archive) (image_name : str)
    (img_bytes : list Byte.byte) (img : image) :
  getinfo zip_ref image_name = Some (inr img_bytes) ->
  imdecode E img_bytes = inr (Some img) ->
  outcome (process_image_body E zip_path zip_ref image_name) = inr tt ->
  exists results,
    predict E img = inr results /\
    ((boxes_of results <> [] /\
      files_written PERSON_DIR (trace (process_image E zip_path zip_ref image_name)) =
        map (person_path zip_path image_name) (seq 0 (length (boxes_of results))) /\
      NoDup (files_written PERSON_DIR
               (trace (process_image E zip_path zip_ref image_name))) /\
      files_written NO_PERSON_DIR
        (trace (process_image E zip_path zip_ref image_name)) = [])
     \/
     (boxes_of results = [] /\
      files_written PERSON_DIR
        (trace (process_image E zip_path zip_ref image_name)) = [] /\
      files_written NO_PERSON_DIR
        (trace (process_image E zip_path zip_ref image_name)) =
        [no_person_path zip_path image_name])).
Proof.
  intros Hinfo Hdecode Hok.
  destruct (image_writes E zip_path _ _ _ _ Hinfo Hdecode Hok)
    as (results & Hpredict & Hwrites).
  exists results. split; [done |]. unfold files_written. rewrite Hwrites.
  case_bool_decide as Hboxes.
  - right. split; [done |]. cbn [map fst List.filter].
    by rewrite no_person_path_not_in_person_dir, no_person_path_in_no_person_dir.
  - left. split; [done |].
    rewrite (paths_of_crops _ _ _ _ 0%nat).
    rewrite filter_all, filter_none.
    + split; [reflexivity |]. split; [| reflexivity].
      apply NoDup_fmap_2; [| apply NoDup_seq].
      intros i j. apply person_path_index_inj.
    + intros p (i & <- & _)%in_map_iff. apply person_path_not_in_no_person_dir.
    + intros p (i & <- & _)%in_map_iff. apply person_path_in_person_dir.
Qed.

(** C4, as the program has it. A member that is read and decoded, and whose
    processing raises no exception, gives these image writes and no other:
    when the detector returned boxes, for the box of index [i] the file
    [<zip>_<image>_person_<i>.jpg] of Person, holding [img[y1:y2, x1:x2]];
    when it returned none, the file [<zip>_<image name>] of No_Person,
    holding [img] itself. *)
Theorem decoded_image_is_cropped_or_kept
    (E : externals) (zip_path : str) (zip_ref : archive) (image_name : str)
    (img_bytes : list Byte.byte) (img : image) :
  getinfo zip_ref image_name = Some (inr img_bytes) ->
  imdecode E img_bytes = inr (Some img) ->
  outcome (process_image_body E zip_path zip_ref image_name) = inr tt ->
  exists results,
    predict E img = inr results /\
    writes (trace (process_image E zip_path zip_ref image_name)) =
      if bool_decide (boxes_of results = [])
      then [(NO_PERSON_DIR ++ sep :: no_person_filename zip_path image_name, img)]
      else imap (fun i b =>
                   (PERSON_DIR ++ sep :: person_filename zip_path image_name i,
                    map (slice (x1 b) (x2 b)) (slice (y1 b) (y2 b) img)))
             (boxes_of results).
Proof.
  intros Hinfo Hdecode Hok.
  destruct (image_writes E zip_path _ _ _ _ Hinfo Hdecode Hok)
    as (results & Hpredict & Hwrites).
  exists results. split; [done |]. rewrite Hwrites.
  case_bool_decide.
  - by rewrite no_person_path_unfold.
  - apply imap_ext. intros i b _. cbn. by rewrite person_path_unfold.
Qed.

End Detection.

(** ** Which events a turn of the image loop leaves *)

Module TraceFacts.
Import Py posixpath Effects Pipeline Observe EffectFacts FlowFacts ImageFacts.

Lemma reads_app (t u : list event) : reads (t ++ u) = reads t ++ reads u.
Proof. apply omap_app. Qed.

Lemma loads_app (t u : list event) : loads (t ++ u) = (loads t + loads u)%nat.
Proof. unfold loads. by rewrite omap_app, length_app. Qed.

Lemma after_read_reads (t : list event) : Forall after_read t -> reads t = [].
Proof.
  induction 1 as [| ev t Hev _ IH]; [reflexivity |].
  destruct ev; cbn in *; done.
Qed.

Lemma after_read_loads (t : list event) : Forall after_read t -> loads t = 0%nat.
Proof.
  induction 1 as [| ev t Hev _ IH]; [reflexivity |].
  destruct ev; cbn in *; done.
Qed.

Lemma crop_writes_after_read zip_path image_name img boxes : forall i,
  Forall after_read (crop_writes zip_path image_name img i boxes).
Proof.
  induction boxes as [| b rest IH]; intros i; cbn [crop_writes]; [constructor |].
  destruct (image_empty (crop img b)); constructor; [exact I | apply IH].
Qed.

Lemma detection_part_after_read zip_path image_name img results :
  Forall after_read (trace (detection_part zip_path image_name img results)).
Proof.
  unfold detection_part. case_bool_decide.
  - unfold imwrite. destruct (image_empty img); repeat constructor.
  - apply crop_writes_after_read.
Qed.

(** A turn of the loop reads its member first, once, and loads nothing. *)
Lemma process_image_shape (E : externals) zip_path zip_ref image_name :
  exists rest,
    trace (process_image E zip_path zip_ref image_name) =
      ZipRead zip_path image_name :: rest /\
    Forall after_read rest.
Proof.
  rewrite process_image_trace, process_image_body_unfold.
  destruct (getinfo zip_ref image_name) as [[e | img_bytes] |];
    [| destruct (imdecode E img_bytes) as [e | [img |]];
       [| destruct (predict E img) as [e | results] |] |];
    cbn [trace outcome fst snd app];
    (eexists; split; [reflexivity |]);
    try (repeat constructor; fail).
  constructor; [exact I |]. apply Forall_app. split.
  - apply detection_part_after_read.
  - destruct (outcome _); repeat constructor.
Qed.

Lemma process_image_reads (E : externals) zip_path zip_ref image_name :
  reads (trace (process_image E zip_path zip_ref image_name)) =
    [(zip_path, image_name)].
Proof.
  destruct (process_image_shape E zip_path zip_ref image_name)
    as (rest & -> & Hrest).
  change (reads (ZipRead zip_path image_name :: rest))
    with ((zip_path, image_name) :: reads rest).
  by rewrite after_read_reads.
Qed.

Lemma process_image_loads (E : externals) zip_path zip_ref image_name :
  loads (trace (process_image E zip_path zip_ref image_name)) = 0%nat.
Proof.
  destruct (process_image_shape E zip_path zip_ref image_name)
    as (rest & -> & Hrest).
  change (loads (ZipRead zip_path image_name :: rest)) with (loads rest).
  by apply after_read_loads.
Qed.

Lemma image_loop_reads (E : externals) zip_path zip_ref (names : list str) :
  reads (List.flat_map (fun n => trace (process_image E zip_path zip_ref n)) names) =
    map (pair zip_path) names.
Proof.
  induction names as [| n names IH]; [reflexivity |].
  cbn [List.flat_map map]. by rewrite reads_app, process_image_reads, IH.
Qed.

Lemma image_loop_loads (E : externals) zip_path zip_ref (names : list str) :
  loads (List.flat_map (fun n => trace (process_image E zip_path zip_ref n)) names) =
    0%nat.
Proof.
  induction names as [| n names IH]; [reflexivity |].
  cbn [List.flat_map]. by rewrite loads_app, process_image_loads, IH.
Qed.

Lemma process_zip_archive_loads (E : externals) zip_path :
  loads (trace (process_zip_archive E zip_path)) = 1%nat.
Proof.
  rewrite process_zip_archive_unfold. cbn [trace fst].
  destruct (ZipFile E zip_path) as [[msg | msg] | zip_ref]; try reflexivity.
  change (loads (LoadModel ?w :: ?t)) with (S (loads t)).
  by rewrite image_loop_loads.
Qed.

End TraceFacts.

(** ** The detector is loaded by each call of the worker *)

Module ModelLoading.
Import Py posixpath Effects Pipeline Observe FlowFacts TraceFacts.

(** C3, as the program has it. Each call of the worker, that is each
    archive, loads the detector exactly once, before the archive is opened,
    and no image of the archive loads it again; a pool process that is
    handed a list of archives therefore loads it as many times as it is
    handed archives. *)
Theorem model_is_loaded_once_per_archive
    (E : externals) (zip_path : str) (zip_ref : archive) (image_name : str)
    (calls : list str) :
  (exists rest,
     trace (process_zip_archive E zip_path) = LoadModel (lit "yolov8s.pt") :: rest /\
     loads rest = 0%nat) /\
  loads (trace (process_zip_archive E zip_path)) = 1%nat /\
  loads (trace (process_image E zip_path zip_ref image_name)) = 0%nat /\
  loads (process_worker E calls) = length calls.
Proof.
  split.
  { pose proof (process_zip_archive_loads E zip_path) as Hone.
    rewrite process_zip_archive_unfold in Hone |- *. cbn [trace fst] in *.
    eexists. split; [reflexivity |].
    change (loads (LoadModel ?w :: ?t)) with (S (loads t)) in Hone. lia. }
  split; [apply process_zip_archive_loads |].
  split; [apply process_image_loads |].
  induction calls as [| z rest IH]; [reflexivity |].
  cbn [process_worker length].
  by rewrite loads_app, process_zip_archive_loads, IH.
Qed.

End ModelLoading.

(** ** Only the members with an image extension are looked at *)

Module MemberFilter.
Import Py posixpath Effects Pipeline Observe EffectFacts FlowFacts ImageFacts TraceFacts.

Lemma endswith_spec (s suffix : str) :
  endswith s suffix = true <-> exists stem, s = stem ++ suffix.
Proof.
  unfold endswith. rewrite bool_decide_eq_true. split.
  - intros H. exists (take (length s - length suffix) s).
    transitivity (take (length s - length suffix) s
                  ++ drop (length s - length suffix) s);
      [symmetry; apply take_drop | by rewrite H].
  - intros (stem & ->). rewrite length_app.
    replace (length stem + length suffix - length suffix)%nat
      with (length stem) by lia.
    by rewrite drop_app_length.
Qed.

Lemma lower_endswith (f suffix : str) :
  endswith (lower f) suffix = true <->
  exists stem ext, f = stem ++ ext /\ lower ext = suffix.
Proof.
  rewrite endswith_spec. unfold lower. split.
  - intros (stem & H).
    exists (take (length stem) f), (drop (length stem) f).
    split; [by rewrite take_drop |].
    rewrite <- skipn_map, H. by rewrite drop_app_length.
  - intros (stem & ext & -> & <-). exists (map lower_char stem).
    apply map_app.
Qed.

Lemma is_image_file_spec (f : str) :
  is_image_file f = true <->
  exists stem ext,
    f = stem ++ ext /\
    (lower ext = lit ".png" \/ lower ext = lit ".jpg" \/ lower ext = lit ".jpeg").
Proof.
  unfold is_image_file, endswith_any. cbn [existsb].
  rewrite orb_false_r, !orb_true_iff, !lower_endswith. split.
  - intros [(s & e & ? & ?) | [(s & e & ? & ?) | (s & e & ? & ?)]];
      exists s, e; auto.
  - intros (s & e & ? & [? | [? | ?]]); [left | right; left | right; right];
      by exists s, e.
Qed.

Lemma namelist_image_members (zip_ref : archive) :
  namelist (image_members zip_ref) = List.filter is_image_file (namelist zip_ref).
Proof.
  induction zip_ref as [| [n data] rest IH]; [reflexivity |].
  cbn [image_members namelist List.filter map fst].
  fold (image_members rest). fold (namelist rest).
  destruct (is_image_file n); cbn [namelist map fst];
    fold (namelist (image_members rest)); by rewrite IH.
Qed.

Lemma getinfo_image_members (zip_ref : archive) (name : str) :
  is_image_file name = true ->
  getinfo (image_members zip_ref) name = getinfo zip_ref name.
Proof.
  intros Himg. induction zip_ref as [| [n data] rest IH]; [reflexivity |].
  cbn [image_members List.filter fst]. destruct (is_image_file n) eqn:Hn.
  - cbn [getinfo]. fold (image_members rest). by rewrite IH.
  - fold (image_members rest). rewrite IH. cbn [getinfo].
    destruct (getinfo rest name); [reflexivity |].
    rewrite bool_decide_eq_false_2; [reflexivity | congruence].
Qed.

Lemma process_image_same_member (E E' : externals) zip_path zip_ref zip_ref' name :
  imdecode E' = imdecode E ->
  predict E' = predict E ->
  getinfo zip_ref' name = getinfo zip_ref name ->
  process_image E' zip_path zip_ref' name = process_image E zip_path zip_ref name.
Proof.
  intros Hd Hp Hg. unfold process_image.
  by rewrite !process_image_body_unfold, Hd, Hp, Hg.
Qed.

Lemma flat_map_agree {A B} (g h : A -> list B) (l : list A) :
  (forall x, In x l -> g x = h x) -> List.flat_map g l = List.flat_map h l.
Proof.
  induction l as [| a l IH]; intros H; [reflexivity |].
  cbn [List.flat_map]. rewrite (H a) by (by left).
  f_equal. apply IH. intros x Hx. apply H. by right.
Qed.

(** C9. The worker reads exactly the members whose name ends, in any
    letter case, with [.png], [.jpg] or [.jpeg], each once per listing and
    in the order of the listing; and the other members leave no event at
    all: the worker does the same on the archive without them. *)
Theorem only_image_members_are_processed
    (E E' : externals) (zip_path : str) (zip_ref : archive) (f : str) :
  ZipFile E zip_path = inr zip_ref ->
  ZipFile E' zip_path = inr (image_members zip_ref) ->
  imdecode E' = imdecode E ->
  predict E' = predict E ->
  reads (trace (process_zip_archive E zip_path)) =
    map (pair zip_path) (List.filter is_image_file (namelist zip_ref)) /\
  process_zip_archive E' zip_path = process_zip_archive E zip_path /\
  (is_image_file f = true <->
   exists stem ext,
     f = stem ++ ext /\
     (lower ext = lit ".png" \/ lower ext = lit ".jpg" \/ lower ext = lit ".jpeg")).
Proof.
  intros Hopen Hopen' Hd Hp. split; [| split; [| apply is_image_file_spec]].
  - rewrite process_zip_archive_unfold, Hopen. cbn [trace fst].
    change (reads (LoadModel ?w :: ?t)) with (reads t).
    apply image_loop_reads.
  - rewrite !process_zip_archive_unfold, Hopen, Hopen'. f_equal. f_equal.
    rewrite namelist_image_members.
    rewrite (Detection.filter_all is_image_file (List.filter _ _))
      by (by intros x [_ Hx]%filter_In).
    apply flat_map_agree. intros n Hn. f_equal.
    apply process_image_same_member; [done | done |].
    apply getinfo_image_members.
    by apply filter_In in Hn as [_ Hn].
Qed.

End MemberFilter.

(** ** The names of the output files *)

Module Naming.
Import Py posixpath Effects Pipeline Observe EffectFacts FlowFacts ImageFacts PathFacts.

Lemma person_filename_stem zip_path image_name i :
  person_filename zip_path image_name i =
    (person_stem zip_path image_name ++ lit "_person")
    ++ "_"%char :: (format_int i ++ lit ".jpg").
Proof.
  unfold person_filename, person_stem. by rewrite <- !app_assoc.
Qed.

Lemma underscore_not_in_index (i : nat) : "_"%char ∉ format_int i ++ lit ".jpg".
Proof.
  apply not_elem_of_app. split.
  - apply format_int_no. vm_compute. lia.
  - by_evaluation.
Qed.

Lemma person_path_eq zip_path image_name i zip_path' image_name' i' :
  person_path zip_path image_name i = person_path zip_path' image_name' i' <->
  person_stem zip_path image_name = person_stem zip_path' image_name' /\ i = i'.
Proof.
  rewrite !person_path_unfold, !person_filename_stem. split.
  - intros H. apply app_inv_head in H.
    apply cut_at_last in H as [Hstem Hindex];
      [| apply underscore_not_in_index ..].
    split; [by apply app_inv_tail in Hstem |].
    apply app_inv_tail in Hindex. by apply format_int_inj.
  - by intros [-> ->].
Qed.

Lemma no_person_path_eq zip_path image_name zip_path' image_name' :
  no_person_path zip_path image_name = no_person_path zip_path' image_name' <->
  no_person_filename zip_path image_name = no_person_filename zip_path' image_name'.
Proof.
  rewrite !no_person_path_unfold. split.
  - apply app_inv_head.
  - by intros ->.
Qed.

(** C2, as the program has it. Two output files have the same path exactly
    when they are in the same directory and: in Person, their
    [<archive>_<image>] stems (base names without extension, directories
    dropped) and their detection indices are equal; in No_Person, their
    [<archive>_<image base name>] names are equal. Within one archive that
    is: the same base name without extension and the same index in Person,
    the same base name in No_Person. *)
Theorem output_paths_coincide_iff
    (zip_path image_name zip_path' image_name' : str) (i i' : nat) :
  (person_path zip_path image_name i = person_path zip_path' image_name' i' <->
   person_stem zip_path image_name = person_stem zip_path' image_name' /\ i = i') /\
  (no_person_path zip_path image_name = no_person_path zip_path' image_name' <->
   no_person_filename zip_path image_name =
     no_person_filename zip_path' image_name') /\
  person_path zip_path image_name i <> no_person_path zip_path' image_name' /\
  (person_path zip_path image_name i = person_path zip_path image_name' i' <->
   (splitext (basename image_name)).1 = (splitext (basename image_name')).1 /\
   i = i') /\
  (no_person_path zip_path image_name = no_person_path zip_path image_name' <->
   basename image_name = basename image_name').
Proof.
  split; [apply person_path_eq |].
  split; [apply no_person_path_eq |].
  split; [apply person_path_not_no_person_path |].
  split.
  - rewrite person_path_eq. unfold person_stem. split.
    + intros [H ->]. by do 2 apply app_inv_head in H.
    + by intros [-> ->].
  - rewrite no_person_path_eq. unfold no_person_filename. split.
    + intros H. by do 2 apply app_inv_head in H.
    + by intros ->.
Qed.

End Naming.

(** ** Extensions: what [splitext] strips, and what the files are called *)

Module Extensions.
Import Py posixpath Effects Pipeline Observe EffectFacts FlowFacts ImageFacts PathFacts.

Lemma basename_plain (f : str) : sep ∉ f -> basename f = f.
Proof.
  intros Hf. destruct (basename_spec f) as [[_ H] | (k & Hk & _)]; [done |].
  exfalso. apply Hf. by apply list_elem_of_lookup_2 in Hk.
Qed.

Lemma basename_last (d f : str) : sep ∉ f -> basename (d ++ sep :: f) = f.
Proof.
  intros Hf.
  destruct (basename_spec (d ++ sep :: f)) as [[Hn _] | (k & Hk & -> & Hd)].
  - exfalso. apply Hn. apply elem_of_app. right. by left.
  - pose proof (take_drop_middle _ _ _ Hk) as Hcut.
    symmetry. by apply (cut_at_last sep d (take k (d ++ sep :: f))).
Qed.

Lemma rfind_absent (c : ascii) (s : str) : c ∉ s -> rfind c s = -1.
Proof.
  intros Hc. destruct (rfind_spec c s) as [[_ H] | (k & Hk & _)]; [done |].
  exfalso. apply Hc. by apply list_elem_of_lookup_2 in Hk.
Qed.

Lemma rfind_last (c : ascii) (s r : str) :
  c ∉ r -> rfind c (s ++ c :: r) = Z.of_nat (length s).
Proof.
  intros Hr.
  destruct (rfind_spec c (s ++ c :: r)) as [[Hn _] | (k & Hk & Hd & ->)].
  - exfalso. apply Hn. apply elem_of_app. right. by left.
  - pose proof (take_drop_middle _ _ _ Hk) as Hcut.
    apply cut_at_last in Hcut as [Hs _]; [| done | done].
    apply lookup_lt_Some in Hk.
    rewrite <- Hs, length_take. f_equal. lia.
Qed.

(** The extension of a name without separator whose last dot is followed
    by [rest]: that dot and [rest], unless only dots come before it. *)
Lemma splitext_last_dot (s rest : str) :
  sep ∉ s ++ extsep :: rest -> extsep ∉ rest ->
  (splitext (s ++ extsep :: rest)).2 = [] \/
  (splitext (s ++ extsep :: rest)).2 = extsep :: rest.
Proof.
  intros Hsep Hdot. unfold splitext.
  rewrite (rfind_absent sep) by done. rewrite rfind_last by done.
  destruct (_ && _); cbn [snd].
  - right. unfold slice_from. rewrite clamp_index_inside.
    + rewrite Nat2Z.id. by rewrite drop_app_length.
    + rewrite length_app. cbn [length]. lia.
  - left. unfold slice_to. by rewrite clamp_index_inside by lia.
Qed.

(** [str.lower] leaves dots and separators alone, and makes none. *)
Lemma lower_char_dot (c : ascii) : lower_char c = extsep -> c = extsep.
Proof.
  destruct c as [[] [] [] [] [] [] [] []]; vm_compute; intros H;
    first [reflexivity | discriminate H].
Qed.

Lemma lower_char_sep (c : ascii) : lower_char c = sep -> c = sep.
Proof.
  destruct c as [[] [] [] [] [] [] [] []]; vm_compute; intros H;
    first [reflexivity | discriminate H].
Qed.

Lemma lower_absent (c : ascii) (s : str) :
  lower_char c = c -> c ∉ lower s -> c ∉ s.
Proof.
  intros Hc Hn Hin. apply Hn. unfold lower. rewrite <- Hc.
  by apply list_elem_of_In, in_map, list_elem_of_In.
Qed.

(** A name that ends in a dot and letters: [splitext] of its base name
    strips exactly that ending, or nothing when only dots come before it. *)
Lemma splitext_of_suffix (stem e t : str) :
  lower e = extsep :: t -> extsep ∉ t -> sep ∉ t ->
  (splitext (basename (stem ++ e))).2 = [] \/
  (splitext (basename (stem ++ e))).2 = e.
Proof.
  intros Hlower Hdot Hsep.
  destruct e as [| c0 rest]; [discriminate |].
  cbn [lower map] in Hlower. injection Hlower as Hc0 Hrest.
  apply lower_char_dot in Hc0 as ->.
  assert (Hd : extsep ∉ rest)
    by (apply lower_absent; [done | by unfold lower; rewrite Hrest]).
  assert (Hs : sep ∉ rest)
    by (apply lower_absent; [done | by unfold lower; rewrite Hrest]).
  assert (Htail : forall s', sep ∉ s' -> sep ∉ s' ++ extsep :: rest).
  { intros s' Hs'. apply not_elem_of_app. split; [done |].
    apply not_elem_of_cons. split; [discriminate | done]. }
  destruct (basename_spec stem) as [[Hn _] | (k & Hk & _ & Hn)].
  - rewrite basename_plain by auto. apply splitext_last_dot; auto.
  - rewrite <- (take_drop_middle _ _ _ Hk), <- app_assoc. cbn [app].
    rewrite basename_last by auto. apply splitext_last_dot; auto.
Qed.

Lemma image_extension (image_name : str) :
  is_image_file image_name = true ->
  (splitext (basename image_name)).2 = [] \/
  lower (splitext (basename image_name)).2 = lit ".png" \/
  lower (splitext (basename image_name)).2 = lit ".jpg" \/
  lower (splitext (basename image_name)).2 = lit ".jpeg".
Proof.
  intros (stem & e & -> & He)%MemberFilter.is_image_file_spec.
  destruct He as [He | [He | He]];
    (destruct (splitext_of_suffix stem e _ He) as [-> | ->];
     [by_evaluation | by_evaluation | by left | right; rewrite He; auto]).
Qed.

Lemma crop_writes_paths zip_path image_name img boxes p content : forall i,
  In (p, content) (writes (crop_writes zip_path image_name img i boxes)) ->
  exists k, p = person_path zip_path image_name k.
Proof.
  induction boxes as [| b rest IH]; intros i; cbn [crop_writes]; [done |].
  destruct (image_empty (crop img b)); [done |].
  change (writes (ImWrite ?q ?c :: ?t)) with ((q, c) :: writes t).
  intros [[= <- _] | H]; [by exists i | by apply (IH (S i))].
Qed.

(** Every image write of a turn of the loop goes to one of the two paths
    the turn can build. *)
Lemma image_write_paths (E : externals) zip_path zip_ref image_name p content :
  In (p, content) (writes (trace (process_image E zip_path zip_ref image_name))) ->
  (exists i, p = person_path zip_path image_name i) \/
  p = no_person_path zip_path image_name.
Proof.
  rewrite process_image_trace, process_image_body_unfold.
  destruct (getinfo zip_ref image_name) as [[e | img_bytes] |]; [done | | done].
  destruct (imdecode E img_bytes) as [e | [img |]]; [done | | done].
  destruct (predict E img) as [e | results]; [done |].
  cbn [trace outcome fst snd].
  rewrite Detection.writes_app.
  change (writes (ZipRead ?z ?n :: Predict ?i :: ?t)) with (writes t).
  intros [Hw | Hw]%in_app_iff.
  - revert Hw. unfold detection_part. case_bool_decide.
    + unfold imwrite. destruct (image_empty img); [done |].
      intros [[= <- _] | []]. by right.
    + intros Hin. left. by apply crop_writes_paths in Hin.
  - by destruct (outcome _).
Qed.

(** C10. Whatever the extension of the member, a file written to Person
    is called [<archive>_<root>_person_<i>.jpg], where [root] is the base
    name of the member without what [os.path.splitext] takes for its
    extension, and so ends in [.jpg]; a file written to No_Person is
    called [<archive>_<base name>], with the base name of the member whole,
    extension included. For a member the worker accepts, the extension that
    is stripped is its [.png], [.jpg] or [.jpeg] ending in the case it was
    written, or empty when the base name has only dots before it. *)
Theorem person_crops_are_jpg_and_others_keep_their_name
    (E : externals) (zip_path : str) (zip_ref : archive) (image_name : str)
    (p : str) (content : image) :
  is_image_file image_name = true ->
  In (p, content) (writes (trace (process_image E zip_path zip_ref image_name))) ->
  (splitext (basename image_name)).1 ++ (splitext (basename image_name)).2 =
    basename image_name /\
  ((splitext (basename image_name)).2 = [] \/
   lower (splitext (basename image_name)).2 = lit ".png" \/
   lower (splitext (basename image_name)).2 = lit ".jpg" \/
   lower (splitext (basename image_name)).2 = lit ".jpeg") /\
  ((exists i,
      (p = PERSON_DIR ++ sep ::
             ((splitext (basename zip_path)).1 ++ lit "_"
              ++ (splitext (basename image_name)).1
              ++ lit "_person_" ++ format_int i ++ lit ".jpg")) /\
      endswith p (lit ".jpg") = true)
   \/
   ((p = NO_PERSON_DIR ++ sep ::
           ((splitext (basename zip_path)).1 ++ lit "_" ++ basename image_name)) /\
    endswith p (basename image_name) = true)).
Proof.
  intros Himg Hin.
  split; [apply splitext_app |]. split; [by apply image_extension |].
  apply image_write_paths in Hin as [[i ->] | ->].
  - left. exists i. rewrite person_path_unfold. split; [reflexivity |].
    apply MemberFilter.endswith_spec. unfold person_filename.
    eexists. rewrite !app_assoc. reflexivity.
  - right. rewrite no_person_path_unfold. split; [reflexivity |].
    apply MemberFilter.endswith_spec. unfold no_person_filename.
    eexists. rewrite !app_assoc. reflexivity.
Qed.

End Extensions.

(** ** Running the program again *)

Module Rerun.
Import Py posixpath Effects Pipeline Observe EffectFacts FlowFacts.

Lemma apply_event_over (a b : filesystem) (ev : event) :
  apply_event (over a b) ev = over (apply_event a ev) b.
Proof.
  destruct ev; try reflexivity; unfold over; cbn [apply_event dirs files].
  - by rewrite insert_union_l.
  - by rewrite (assoc_L (∪)).
Qed.

Lemma run_trace_over (t : list event) : forall a b,
  run_trace t (over a b) = over (run_trace t a) b.
Proof.
  induction t as [| ev t IH]; intros a b; [reflexivity |].
  cbn [run_trace foldl]. rewrite apply_event_over. apply IH.
Qed.

Lemma over_empty (fs : filesystem) : over (Filesystem ∅ ∅) fs = fs.
Proof.
  destruct fs as [d f]. unfold over. cbn [dirs files].
  by rewrite !(left_id_L ∅ (∪)).
Qed.

(** What a trace does to a tree does not depend on the tree. *)
Lemma run_trace_from (t : list event) (fs : filesystem) :
  run_trace t fs = over (run_trace t (Filesystem ∅ ∅)) fs.
Proof. by rewrite <- run_trace_over, over_empty. Qed.

Lemma over_twice (a fs : filesystem) : over a (over a fs) = over a fs.
Proof.
  unfold over. cbn [dirs files].
  by rewrite !(assoc_L (∪)), !(idemp_L (∪)).
Qed.

Lemma run_trace_twice (t : list event) (fs : filesystem) :
  run_trace t (run_trace t fs) = run_trace t fs.
Proof.
  rewrite (run_trace_from t fs), (run_trace_from t (over _ _)).
  apply over_twice.
Qed.

Lemma run_trace_files (t : list event) : forall fs,
  dom (files (run_trace t fs)) =
    list_to_set (map fst (writes t)) ∪ dom (files fs).
Proof.
  induction t as [| ev t IH]; intros fs.
  - cbn. by rewrite (left_id_L ∅ (∪)).
  - cbn [run_trace foldl]. fold (run_trace t (apply_event fs ev)). rewrite IH.
    destruct ev; cbn [apply_event files]; try reflexivity.
    change (writes (ImWrite path img :: t)) with ((path, img) :: writes t).
    cbn [map fst list_to_set]. rewrite dom_insert_L, !(assoc_L (∪)).
    f_equal. apply (comm_L (∪)).
Qed.

(** C8. A second run on the same input, with the decoder and the detector
    answering as before, leaves the output tree exactly as the first run
    left it: the same directories, the same files under the same names
    with the same contents. The names of the files after a run are those
    there before it and those the run writes, so the second run, whose
    writes are those of the first, writes only over files that exist. *)
Theorem second_run_changes_nothing (E : externals) (fs : filesystem) :
  run E (run E fs) = run E fs /\
  dom (files (run E fs)) =
    list_to_set (map fst (writes (trace (main E)))) ∪ dom (files fs) /\
  dom (files (run E (run E fs))) = dom (files (run E fs)).
Proof.
  unfold run. rewrite run_trace_twice.
  split; [reflexivity |]. split; [apply run_trace_files | reflexivity].
Qed.

End Rerun.

(** ** What a crop holds *)

Module CropFacts.
Import Py posixpath Effects Pipeline Observe PathFacts.

Lemma slice_inside {A} (lo hi : Z) (l : list A) :
  0 <= lo -> 0 <= hi <= Z.of_nat (length l) ->
  slice lo hi l = drop (Z.to_nat lo) (take (Z.to_nat hi) l).
Proof.
  intros Hlo Hhi. unfold slice. rewrite (clamp_index_inside _ hi) by done.
  destruct (Z.le_gt_cases lo (Z.of_nat (length l))) as [Hle | Hgt].
  - by rewrite clamp_index_inside by lia.
  - unfold clamp_index. destruct (Z.ltb_spec lo 0); [lia |].
    rewrite Z.min_r by lia. rewrite Nat2Z.id.
    rewrite !drop_ge; [done | rewrite length_take; lia ..].
Qed.

Lemma slice_lookup {A} (lo hi : Z) (l : list A) (k : nat) :
  0 <= lo -> 0 <= hi <= Z.of_nat (length l) -> Z.of_nat k < hi - lo ->
  slice lo hi l !! k = l !! (Z.to_nat lo + k)%nat.
Proof.
  intros Hlo Hhi Hk. rewrite slice_inside by done.
  rewrite lookup_drop. apply lookup_take_lt. lia.
Qed.

Lemma slice_length {A} (lo hi : Z) (l : list A) :
  0 <= lo <= hi -> hi <= Z.of_nat (length l) ->
  length (slice lo hi l) = Z.to_nat (hi - lo).
Proof.
  intros Hlo Hhi. rewrite slice_inside by lia.
  rewrite length_drop, length_take. lia.
Qed.

Lemma map_lookup {A B} (f : A -> B) (l : list A) (i : nat) :
  map f l !! i = f <$> l !! i.
Proof. exact (list_lookup_fmap f l i). Qed.

(** For a box inside the image, the crop has the height of the box. *)
Lemma crop_height (img : image) (b : box) :
  0 <= y1 b <= y2 b -> y2 b <= Z.of_nat (length img) ->
  length (crop img b) = Z.to_nat (y2 b - y1 b).
Proof.
  intros Hy1 Hy2. unfold crop. rewrite length_map. by apply slice_length.
Qed.

(** X13. For a box inside the image, the pixel of the crop at row [r] and
    column [c] is the pixel of the image at row [y1 + r] and column
    [x1 + c]. *)
Lemma crop_pixel (img : image) (b : box) (r c : nat) (row : list pixel) :
  0 <= y1 b -> 0 <= y2 b <= Z.of_nat (length img) ->
  Z.of_nat r < y2 b - y1 b ->
  img !! (Z.to_nat (y1 b) + r)%nat = Some row ->
  0 <= x1 b -> 0 <= x2 b <= Z.of_nat (length row) ->
  Z.of_nat c < x2 b - x1 b ->
  exists cropped_row,
    crop img b !! r = Some cropped_row /\
    cropped_row !! c = row !! (Z.to_nat (x1 b) + c)%nat.
Proof.
  intros Hy1 Hy2 Hr Hrow Hx1 Hx2 Hc.
  exists (slice (x1 b) (x2 b) row). split.
  - unfold crop. etrans; [apply map_lookup |].
    rewrite slice_lookup by done. unfold image in Hrow. by rewrite Hrow.
  - by apply slice_lookup.
Qed.

End CropFacts.

(** ** The order in which the pool takes the archives *)

Module PoolOrder.
Import Py posixpath Effects Pipeline Observe EffectFacts FlowFacts.

Lemma written_names_app (t u : list event) :
  written_names (t ++ u) = written_names t ∪ written_names u.
Proof.
  unfold written_names, writes. rewrite omap_app, map_app.
  apply list_to_set_app_L.
Qed.

(** X12. The names of the files a batch writes are the same in whatever
    order the archives are taken, also when two archives write under the
    same name. *)
Lemma written_names_permutation (E : externals) (zs zs' : list str) :
  zs ≡ₚ zs' ->
  written_names (trace (executor_map E zs)) =
    written_names (trace (executor_map E zs')).
Proof.
  rewrite !executor_map_unfold. cbn [trace fst].
  induction 1 as [| z zs zs' _ IH | y z zs | zs1 zs2 zs3 _ IH1 _ IH2].
  - reflexivity.
  - cbn [List.flat_map]. by rewrite !written_names_app, IH.
  - cbn [List.flat_map]. rewrite !written_names_app, !(assoc_L (∪)).
    f_equal. apply (comm_L (∪)).
  - by rewrite IH1.
Qed.

End PoolOrder.

(** ** The definitions on small inputs *)

Module Examples.
Import Py posixpath Effects Pipeline Observe Demo.

Example basename_nested : basename (lit "a/b/x.JPG") = lit "x.JPG".
Proof. reflexivity. Qed.

Example splitext_plain : splitext (lit "x.tar.png") = (lit "x.tar", lit ".png").
Proof. reflexivity. Qed.

Example splitext_leading_dot : splitext (lit ".png") = (lit ".png", lit "").
Proof. reflexivity. Qed.

Example splitext_zip :
  splitext (basename (lit "zip/batch_1.zip")) = (lit "batch_1", lit ".zip").
Proof. reflexivity. Qed.

Example join_dirs : PERSON_DIR = lit "output/Person".
Proof. reflexivity. Qed.

Example join_absolute : join (lit "output") (lit "/tmp/x") = lit "/tmp/x".
Proof. reflexivity. Qed.

Example format_int_12 : format_int 12 = lit "12".
Proof. reflexivity. Qed.

Example is_image_file_upper : is_image_file (lit "A/B.JpEg") = true.
Proof. reflexivity. Qed.

Example is_image_file_txt : is_image_file (lit "notes.txt") = false.
Proof. reflexivity. Qed.

Example slice_negative : slice (-2) 5 [1; 2; 3; 4] = [3; 4].
Proof. reflexivity. Qed.

Example slice_backwards : slice 3 1 [1; 2; 3; 4] = [].
Proof. reflexivity. Qed.

Example makedirs_person : makedirs PERSON_DIR = [lit "output"; lit "output/Person"].
Proof. reflexivity. Qed.

Example person_filename_png :
  person_filename (lit "zip/batch1.zip") (lit "d1/scene.png") 0 =
    lit "batch1_scene_person_0.jpg".
Proof. reflexivity. Qed.

Example person_filename_dot_file :
  person_filename (lit "zip/batch1.zip") (lit "d1/.png") 3 =
    lit "batch1_.png_person_3.jpg".
Proof. reflexivity. Qed.

Example duplicate_member_reads_the_last :
  getinfo [(lit "a.jpg", inr [Byte.x01]); (lit "a.jpg", inr [Byte.x02])] (lit "a.jpg") =
    Some (inr [Byte.x02]).
Proof. reflexivity. Qed.

Example crop_second_box :
  crop (img2 2) (Box 1 0 2 2) = [[px 0]; [px 0]].
Proof. reflexivity. Qed.

Example trace_of_batch2 :
  trace (process_zip_archive demo_all (lit "zip/batch2.zip")) =
    [ LoadModel (lit "yolov8s.pt");
      ZipRead (lit "zip/batch2.zip") (lit "thin.jpg");
      Predict (img2 3);
      Log ERROR (MsgErrorProcessing (lit "thin.jpg") (lit "zip/batch2.zip")
                   (Exception (lit "cv2.error")));
      ZipRead (lit "zip/batch2.zip") (lit "crc.png");
      Log ERROR (MsgErrorProcessing (lit "crc.png") (lit "zip/batch2.zip")
                   (BadZipFile (lit "Bad CRC-32")));
      ZipRead (lit "zip/batch2.zip") (lit "late.jpg");
      Predict (img2 4);
      ImWrite (lit "output/No_Person/batch2_late.jpg") (img2 4) ].
Proof. reflexivity. Qed.

Example files_after_the_run :
  dom (files (run demo_all empty_fs)) =
    list_to_set
      [ lit "output/Person/batch1_x_person_0.jpg";
        lit "output/No_Person/batch1_scene.png";
        lit "output/Person/batch1_pair_person_0.jpg";
        lit "output/Person/batch1_pair_person_1.jpg";
        lit "output/No_Person/batch2_late.jpg" ].
Proof. vm_compute. reflexivity. Qed.

End Examples.

(** ** The theorems on the small input directory *)

Module OnDemo.
Import Py posixpath Effects Pipeline Observe Demo.

(** The member [pair.JPG] of [batch1]: two boxes, two files in Person. *)
Lemma decoded_image_has_exactly_one_outcome_witness :
  exists results,
    predict demo_all (img2 2) = inr results /\
    ((boxes_of results <> [] /\
      files_written PERSON_DIR
        (trace (process_image demo_all (lit "zip/batch1.zip") batch1 (lit "pair.JPG"))) =
        map (person_path (lit "zip/batch1.zip") (lit "pair.JPG"))
          (seq 0 (length (boxes_of results))) /\
      NoDup (files_written PERSON_DIR
               (trace (process_image demo_all (lit "zip/batch1.zip") batch1
                         (lit "pair.JPG")))) /\
      files_written NO_PERSON_DIR
        (trace (process_image demo_all (lit "zip/batch1.zip") batch1 (lit "pair.JPG"))) =
        [])
     \/
     (boxes_of results = [] /\
      files_written PERSON_DIR
        (trace (process_image demo_all (lit "zip/batch1.zip") batch1 (lit "pair.JPG"))) =
        [] /\
      files_written NO_PERSON_DIR
        (trace (process_image demo_all (lit "zip/batch1.zip") batch1 (lit "pair.JPG"))) =
        [no_person_path (lit "zip/batch1.zip") (lit "pair.JPG")])).
Proof.
  apply (Detection.decoded_image_has_exactly_one_outcome demo_all
           (lit "zip/batch1.zip") batch1 (lit "pair.JPG") [Byte.x02] (img2 2));
    reflexivity.
Defined.

(** The member [d2/scene.png] of [batch1]: no box, the image itself in
    No_Person. *)
Lemma decoded_image_is_cropped_or_kept_witness :
  exists results,
    predict demo_all (img2 5) = inr results /\
    writes (trace (process_image demo_all (lit "zip/batch1.zip") batch1
                     (lit "d2/scene.png"))) =
      if bool_decide (boxes_of results = [])
      then [(NO_PERSON_DIR ++ sep ::
               no_person_filename (lit "zip/batch1.zip") (lit "d2/scene.png"),
             img2 5)]
      else imap (fun i b =>
                   (PERSON_DIR ++ sep ::
                      person_filename (lit "zip/batch1.zip") (lit "d2/scene.png") i,
                    map (slice (x1 b) (x2 b)) (slice (y1 b) (y2 b) (img2 5))))
             (boxes_of results).
Proof.
  apply (Detection.decoded_image_is_cropped_or_kept demo_all
           (lit "zip/batch1.zip") batch1 (lit "d2/scene.png") [Byte.x05] (img2 5));
    reflexivity.
Defined.

(** The archive [corrupt.zip], between [batch1.zip] and [batch2.zip]. *)
Lemma corrupt_archive_is_logged_and_skipped_witness :
  writes (trace (process_zip_archive demo_all (lit "zip/corrupt.zip"))) = [] /\
  run_trace (trace (process_zip_archive demo_all (lit "zip/corrupt.zip"))) empty_fs =
    empty_fs /\
  logged (trace (process_zip_archive demo_all (lit "zip/corrupt.zip"))) =
    [(ERROR, MsgBadZip (lit "zip/corrupt.zip"))] /\
  outcome (process_zip_archive demo_all (lit "zip/corrupt.zip")) =
    inr (lit "zip/corrupt.zip") /\
  executor_map demo_all
    ([lit "zip/batch1.zip"] ++ lit "zip/corrupt.zip" :: [lit "zip/batch2.zip"]) =
    (trace (executor_map demo_all [lit "zip/batch1.zip"])
       ++ trace (process_zip_archive demo_all (lit "zip/corrupt.zip"))
       ++ trace (executor_map demo_all [lit "zip/batch2.zip"]),
     inr ([lit "zip/batch1.zip"] ++ lit "zip/corrupt.zip" :: [lit "zip/batch2.zip"])).
Proof.
  apply (ErrorHandling.corrupt_archive_is_logged_and_skipped demo_all
           [lit "zip/batch1.zip"] [lit "zip/batch2.zip"] (lit "zip/corrupt.zip")
           (BadZipFile (lit "File is not a zip file")) empty_fs).
  reflexivity.
Defined.

(** The member [broken.jpeg] of [batch1], between [x.jpg] and [pair.JPG]. *)
Lemma undecodable_image_is_warned_and_skipped_witness :
  writes (trace (process_image demo_all (lit "zip/batch1.zip") batch1
                   (lit "broken.jpeg"))) = [] /\
  logged (trace (process_image demo_all (lit "zip/batch1.zip") batch1
                   (lit "broken.jpeg"))) =
    [(WARNING, MsgCouldNotDecode (lit "broken.jpeg") (lit "zip/batch1.zip"))] /\
  for_each ([lit "x.jpg"] ++ lit "broken.jpeg" :: [lit "pair.JPG"])
    (process_image demo_all (lit "zip/batch1.zip") batch1) =
    (trace (for_each [lit "x.jpg"]
              (process_image demo_all (lit "zip/batch1.zip") batch1))
       ++ trace (process_image demo_all (lit "zip/batch1.zip") batch1
                   (lit "broken.jpeg"))
       ++ trace (for_each [lit "pair.JPG"]
                   (process_image demo_all (lit "zip/batch1.zip") batch1)),
     inr tt).
Proof.
  apply (ErrorHandling.undecodable_image_is_warned_and_skipped demo_all
           (lit "zip/batch1.zip") batch1 [lit "x.jpg"] [lit "pair.JPG"]
           (lit "broken.jpeg") [Byte.x00]);
    reflexivity.
Defined.

(** [batch1] with and without [notes.txt]. *)
Lemma only_image_members_are_processed_witness :
  reads (trace (process_zip_archive demo_all (lit "zip/batch1.zip"))) =
    map (pair (lit "zip/batch1.zip"))
      (List.filter is_image_file (namelist batch1)) /\
  process_zip_archive
    (Externals (fun _ => inr (image_members batch1)) demo_imdecode demo_predict [])
    (lit "zip/batch1.zip") =
    process_zip_archive demo_all (lit "zip/batch1.zip") /\
  (is_image_file (lit "notes.txt") = true <->
   exists stem ext,
     lit "notes.txt" = stem ++ ext /\
     (lower ext = lit ".png" \/ lower ext = lit ".jpg" \/ lower ext = lit ".jpeg")).
Proof.
  apply (MemberFilter.only_image_members_are_processed demo_all
           (Externals (fun _ => inr (image_members batch1))
              demo_imdecode demo_predict [])
           (lit "zip/batch1.zip") batch1 (lit "notes.txt"));
    reflexivity.
Defined.

(** The second crop of [pair.JPG]. *)
Lemma person_crops_are_jpg_and_others_keep_their_name_witness :
  (splitext (basename (lit "pair.JPG"))).1 ++ (splitext (basename (lit "pair.JPG"))).2 =
    basename (lit "pair.JPG") /\
  ((splitext (basename (lit "pair.JPG"))).2 = [] \/
   lower (splitext (basename (lit "pair.JPG"))).2 = lit ".png" \/
   lower (splitext (basename (lit "pair.JPG"))).2 = lit ".jpg" \/
   lower (splitext (basename (lit "pair.JPG"))).2 = lit ".jpeg") /\
  ((exists i,
      (lit "output/Person/batch1_pair_person_1.jpg" =
         PERSON_DIR ++ sep ::
           ((splitext (basename (lit "zip/batch1.zip"))).1 ++ lit "_"
            ++ (splitext (basename (lit "pair.JPG"))).1
            ++ lit "_person_" ++ format_int i ++ lit ".jpg")) /\
      endswith (lit "output/Person/batch1_pair_person_1.jpg") (lit ".jpg") = true)
   \/
   ((lit "output/Person/batch1_pair_person_1.jpg" =
       NO_PERSON_DIR ++ sep ::
         ((splitext (basename (lit "zip/batch1.zip"))).1 ++ lit "_"
          ++ basename (lit "pair.JPG"))) /\
    endswith (lit "output/Person/batch1_pair_person_1.jpg")
      (basename (lit "pair.JPG")) = true)).
Proof.
  apply (Extensions.person_crops_are_jpg_and_others_keep_their_name demo_all
           (lit "zip/batch1.zip") batch1 (lit "pair.JPG")
           (lit "output/Person/batch1_pair_person_1.jpg")
           (crop (img2 2) (Box 1 0 2 2))).
  - reflexivity.
  - right. left. reflexivity.
Defined.

(** Against C2 as the specification words it: the members [d1/scene.png]
    and [d2/scene.png] of one archive are different members, of different
    subdirectories and with different pixels, and both are written to
    [output/No_Person/batch1_scene.png]. *)
Lemma members_of_two_subdirectories_share_a_path :
  lit "d1/scene.png" <> lit "d2/scene.png" /\
  writes (trace (process_image demo_all (lit "zip/batch1.zip") batch1
                   (lit "d1/scene.png"))) =
    [(lit "output/No_Person/batch1_scene.png", img2 4)] /\
  writes (trace (process_image demo_all (lit "zip/batch1.zip") batch1
                   (lit "d2/scene.png"))) =
    [(lit "output/No_Person/batch1_scene.png", img2 5)] /\
  files (run demo_all empty_fs) !! lit "output/No_Person/batch1_scene.png" =
    Some (img2 5).
Proof. repeat split; [discriminate | vm_compute; reflexivity ..]. Qed.

(** Against C3 as the specification words it: a pool process that is
    handed two archives loads the detector twice. *)
Lemma second_archive_loads_the_model_again :
  loads (process_worker demo_all [lit "zip/batch1.zip"; lit "zip/batch2.zip"]) = 2%nat /\
  loads (process_worker demo_all [lit "zip/batch1.zip"; lit "zip/batch2.zip"]) <> 1%nat.
Proof. split; [reflexivity | discriminate]. Qed.

(** Against C4 as the specification words it: the member [thin.jpg] of
    [batch2] decodes, the detector returns two boxes for it, the first one
    without width; the crop for it is empty, [cv2.imwrite] raises, and no
    file is written for either box. *)
Lemma box_without_width_leaves_no_file :
  getinfo batch2 (lit "thin.jpg") = Some (inr [Byte.x03]) /\
  imdecode demo_all [Byte.x03] = inr (Some (img2 3)) /\
  predict demo_all (img2 3) = inr [[Box 0 0 0 1; Box 0 0 1 1]] /\
  writes (trace (process_image demo_all (lit "zip/batch2.zip") batch2
                   (lit "thin.jpg"))) = [] /\
  logged (trace (process_image demo_all (lit "zip/batch2.zip") batch2
                   (lit "thin.jpg"))) =
    [(ERROR, MsgErrorProcessing (lit "thin.jpg") (lit "zip/batch2.zip")
               (Exception (lit "cv2.error")))].
Proof. repeat split; reflexivity. Qed.

End OnDemo.

(** ** An image that fails *)

Module ImageFailures.
Import Py posixpath Effects Pipeline Observe Account.
Import EffectFacts FlowFacts ImageFacts PathFacts.

Lemma logged_app (t u : list event) : logged (t ++ u) = logged t ++ logged u.
Proof. apply omap_app. Qed.

Lemma crop_writes_crops zip_path image_name img boxes : forall i,
  crop_writes zip_path image_name img i boxes =
    imap (fun k c => ImWrite (person_path zip_path image_name (i + k)) c)
      (crops_before_failure img boxes).
Proof.
  induction boxes as [| b rest IH]; intros i; [reflexivity |].
  cbn [crop_writes crops_before_failure].
  destruct (image_empty (crop img b)); [reflexivity |].
  cbn [imap]. rewrite Nat.add_0_r. f_equal. rewrite IH.
  apply imap_ext. intros k c _. cbn. by rewrite Nat.add_succ_r.
Qed.

Lemma writes_of_crops zip_path image_name (crops : list image) : forall i,
  writes (imap (fun k c => ImWrite (person_path zip_path image_name (i + k)) c)
            crops) =
    imap (fun k c => (person_path zip_path image_name (i + k), c)) crops.
Proof.
  induction crops as [| c rest IH]; intros i; [reflexivity |].
  cbn [imap]. change (writes (ImWrite ?q ?x :: ?t)) with ((q, x) :: writes t).
  f_equal.
  transitivity
    (writes (imap (fun k c => ImWrite (person_path zip_path image_name (S i + k)) c)
               rest)).
  - f_equal. apply imap_ext. intros k x _. cbn. by rewrite Nat.add_succ_r.
  - rewrite IH. apply imap_ext. intros k x _. cbn. by rewrite Nat.add_succ_r.
Qed.

Lemma crop_writes_logged zip_path image_name img boxes : forall i,
  logged (crop_writes zip_path image_name img i boxes) = [].
Proof.
  induction boxes as [| b rest IH]; intros i; cbn [crop_writes]; [reflexivity |].
  destruct (image_empty (crop img b)); [reflexivity | apply IH].
Qed.

Lemma crops_all_written (img : image) (boxes : list box) :
  all_crops_written img boxes = false -> boxes <> [].
Proof. by destruct boxes. Qed.

(** X1. When reading the member, decoding it or running the detector on it
    raises, the turn of the loop writes no file and logs exactly one
    record, at level ERROR, naming the image, the archive and the
    exception; the loop goes on, and the members before and after leave
    the events they would leave without it. *)
Theorem failing_image_is_logged_and_skipped
    (E : externals) (zip_path : str) (zip_ref : archive)
    (before after : list str) (image_name : str) (e : exn) :
  raised_before_detection E zip_ref image_name = Some e ->
  writes (trace (process_image E zip_path zip_ref image_name)) = [] /\
  logged (trace (process_image E zip_path zip_ref image_name)) =
    [(ERROR, MsgErrorProcessing image_name zip_path e)] /\
  for_each (before ++ image_name :: after) (process_image E zip_path zip_ref) =
    (trace (for_each before (process_image E zip_path zip_ref))
       ++ trace (process_image E zip_path zip_ref image_name)
       ++ trace (for_each after (process_image E zip_path zip_ref)),
     inr tt).
Proof.
  intros Hraise.
  assert (Ht : exists t,
             trace (process_image E zip_path zip_ref image_name) =
               t ++ [Log ERROR (MsgErrorProcessing image_name zip_path e)] /\
             writes t = [] /\ logged t = []).
  { rewrite process_image_trace, process_image_body_unfold.
    unfold raised_before_detection in Hraise.
    destruct (getinfo zip_ref image_name) as [[e' | img_bytes] |];
      [injection Hraise as ->; by eexists | | injection Hraise as <-; by eexists].
    destruct (imdecode E img_bytes) as [e' | [img |]];
      [injection Hraise as ->; by eexists | | discriminate].
    destruct (predict E img) as [e' | results]; [| discriminate].
    injection Hraise as ->. by eexists. }
  destruct Ht as (t & Ht & Hw & Hl).
  rewrite !for_each_images. cbn [trace fst].
  rewrite flat_map_app. cbn [List.flat_map]. rewrite Ht.
  rewrite Detection.writes_app, logged_app, Hw, Hl. done.
Qed.

(** X2. When the detector returned boxes and the crop of one of them is
    empty, the files of the boxes before it are written and stay, no file
    is written for that box nor for the boxes after it, the image is not
    written to No_Person either, and one ERROR record is logged. *)
Theorem empty_crop_stops_the_image
    (E : externals) (zip_path : str) (zip_ref : archive) (image_name : str)
    (img : image) (results : list (list box)) :
  decoded E zip_ref image_name = Some img ->
  predict E img = inr results ->
  all_crops_written img (boxes_of results) = false ->
  writes (trace (process_image E zip_path zip_ref image_name)) =
    imap (fun i c => (person_path zip_path image_name i, c))
      (crops_before_failure img (boxes_of results)) /\
  (length (crops_before_failure img (boxes_of results))
   < length (boxes_of results))%nat /\
  files_written NO_PERSON_DIR
    (trace (process_image E zip_path zip_ref image_name)) = [] /\
  logged (trace (process_image E zip_path zip_ref image_name)) =
    [(ERROR, MsgErrorProcessing image_name zip_path (Exception (lit "cv2.error")))].
Proof.
  intros Hdecoded Hpredict Hall.
  assert (Ht : trace (process_image E zip_path zip_ref image_name) =
               ZipRead zip_path image_name :: Predict img
               :: crop_writes zip_path image_name img 0 (boxes_of results)
               ++ [Log ERROR (MsgErrorProcessing image_name zip_path
                                (Exception (lit "cv2.error")))]).
  { rewrite process_image_trace, process_image_body_unfold.
    unfold decoded in Hdecoded.
    destruct (getinfo zip_ref image_name) as [[e' | img_bytes] |]; try discriminate.
    destruct (imdecode E img_bytes) as [e' | [img' |]]; try discriminate.
    injection Hdecoded as ->. rewrite Hpredict. unfold detection_part.
    rewrite bool_decide_eq_false_2 by (by apply (crops_all_written img)).
    rewrite Hall. reflexivity. }
  assert (Hw : writes (trace (process_image E zip_path zip_ref image_name)) =
               imap (fun i c => (person_path zip_path image_name i, c))
                 (crops_before_failure img (boxes_of results))).
  { rewrite Ht.
    change (writes (ZipRead ?z ?n :: Predict ?i :: ?t)) with (writes t).
    rewrite Detection.writes_app, app_nil_r, crop_writes_crops.
    apply (writes_of_crops _ _ _ 0%nat). }
  split; [exact Hw |]. split; [| split].
  - clear -Hall. induction (boxes_of results) as [| b rest IH]; [discriminate |].
    cbn [all_crops_written forallb crops_before_failure length] in *.
    destruct (image_empty (crop img b)); cbn [length negb andb] in *; [lia |].
    apply IH in Hall. lia.
  - unfold files_written. rewrite Hw. apply Detection.filter_none.
    intros p Hp. apply in_map_iff in Hp as ([q c] & <- & Hq).
    apply list_elem_of_In, elem_of_lookup_imap in Hq as (i & c' & [= -> ->] & _).
    apply person_path_not_in_no_person_dir.
  - rewrite Ht.
    change (logged (ZipRead ?z ?n :: Predict ?i :: ?t)) with (logged t).
    by rewrite logged_app, crop_writes_logged.
Qed.

End ImageFailures.

(** ** Counting what a worker call does *)

Module Accounting.
Import Py posixpath Effects Pipeline Observe Account.
Import EffectFacts FlowFacts ImageFacts PathFacts.

Lemma decoded_Some (E : externals) zip_ref image_name img :
  decoded E zip_ref image_name = Some img ->
  exists img_bytes,
    getinfo zip_ref image_name = Some (inr img_bytes) /\
    imdecode E img_bytes = inr (Some img).
Proof.
  unfold decoded.
  destruct (getinfo zip_ref image_name) as [[e | img_bytes] |]; try discriminate.
  destruct (imdecode E img_bytes) as [e | [img' |]] eqn:Hd; try discriminate.
  intros [= ->]. by exists img_bytes.
Qed.

Lemma detection_part_logged zip_path image_name img results :
  logged (trace (detection_part zip_path image_name img results)) = [].
Proof.
  unfold detection_part. case_bool_decide.
  - unfold imwrite. by destruct (image_empty img).
  - apply ImageFailures.crop_writes_logged.
Qed.

Lemma crop_writes_inferences zip_path image_name img boxes : forall i,
  inferences (crop_writes zip_path image_name img i boxes) = [].
Proof.
  induction boxes as [| b rest IH]; intros i; cbn [crop_writes]; [reflexivity |].
  destruct (image_empty (crop img b)); [reflexivity | apply IH].
Qed.

Lemma detection_part_inferences zip_path image_name img results :
  inferences (trace (detection_part zip_path image_name img results)) = [].
Proof.
  unfold detection_part. case_bool_decide.
  - unfold imwrite. by destruct (image_empty img).
  - apply crop_writes_inferences.
Qed.

Lemma inferences_app (t u : list event) :
  inferences (t ++ u) = inferences t ++ inferences u.
Proof. apply omap_app. Qed.

(** A turn of the image loop, by what the member decodes to. *)
Lemma process_image_cases (E : externals) zip_path zip_ref image_name :
  match decoded E zip_ref image_name with
  | None =>
      processed_cleanly E zip_path zip_ref image_name = false /\
      exists lvl m,
        trace (process_image E zip_path zip_ref image_name) =
          [ZipRead zip_path image_name; Log lvl m]
  | Some img =>
      match predict E img with
      | inl e =>
          processed_cleanly E zip_path zip_ref image_name = false /\
          trace (process_image E zip_path zip_ref image_name) =
            [ZipRead zip_path image_name; Predict img;
             Log ERROR (MsgErrorProcessing image_name zip_path e)]
      | inr results =>
          processed_cleanly E zip_path zip_ref image_name =
            match outcome (detection_part zip_path image_name img results) with
            | inl _ => false
            | inr _ => true
            end /\
          trace (process_image E zip_path zip_ref image_name) =
            ZipRead zip_path image_name :: Predict img
            :: trace (detection_part zip_path image_name img results)
            ++ match outcome (detection_part zip_path image_name img results) with
               | inl e => [Log ERROR (MsgErrorProcessing image_name zip_path e)]
               | inr _ => []
               end
      end
  end.
Proof.
  unfold processed_cleanly.
  rewrite process_image_trace, process_image_body_unfold. unfold decoded.
  destruct (getinfo zip_ref image_name) as [[e | img_bytes] |];
    [split; [done | by eexists _, _] | | split; [done | by eexists _, _]].
  destruct (imdecode E img_bytes) as [e | [img |]];
    [split; [done | by eexists _, _] | | split; [done | by eexists _, _]].
  destruct (predict E img) as [e | results]; [done |].
  cbn [trace outcome fst snd]. split; [| reflexivity].
  by destruct (outcome _).
Qed.

Lemma process_image_inferences (E : externals) zip_path zip_ref image_name :
  inferences (trace (process_image E zip_path zip_ref image_name)) =
    match decoded E zip_ref image_name with
    | Some img => [img]
    | None => []
    end.
Proof.
  pose proof (process_image_cases E zip_path zip_ref image_name) as H.
  destruct (decoded E zip_ref image_name) as [img |].
  - destruct (predict E img) as [e | results]; destruct H as [_ ->];
      [reflexivity |].
    change (inferences (ZipRead ?z ?n :: Predict ?i :: ?t))
      with (i :: inferences t).
    rewrite inferences_app, detection_part_inferences.
    by destruct (outcome _).
  - by destruct H as (_ & lvl & m & ->).
Qed.

Lemma process_image_logged_length (E : externals) zip_path zip_ref image_name :
  length (logged (trace (process_image E zip_path zip_ref image_name))) =
    if processed_cleanly E zip_path zip_ref image_name then 0%nat else 1%nat.
Proof.
  pose proof (process_image_cases E zip_path zip_ref image_name) as H.
  destruct (decoded E zip_ref image_name) as [img |].
  - destruct (predict E img) as [e | results]; destruct H as [-> ->];
      [reflexivity |].
    change (logged (ZipRead ?z ?n :: Predict ?i :: ?t)) with (logged t).
    rewrite ImageFailures.logged_app, detection_part_logged.
    by destruct (outcome _).
  - by destruct H as (-> & lvl & m & ->).
Qed.

Lemma processed_cleanly_writes (E : externals) zip_path zip_ref image_name :
  processed_cleanly E zip_path zip_ref image_name = true ->
  exists img,
    decoded E zip_ref image_name = Some img /\
    writes (trace (process_image E zip_path zip_ref image_name)) =
      if bool_decide (boxes_found E zip_ref image_name = [])
      then [(no_person_path zip_path image_name, img)]
      else imap (fun i b => (person_path zip_path image_name i, crop img b))
             (boxes_found E zip_ref image_name).
Proof.
  intros Hclean. unfold processed_cleanly in Hclean. unfold boxes_found.
  destruct (decoded E zip_ref image_name) as [img |] eqn:Hdec; [| discriminate].
  destruct (outcome (process_image_body _ _ _ _)) as [e | []] eqn:Hok;
    [discriminate |].
  apply decoded_Some in Hdec as (img_bytes & Hinfo & Hdecode).
  destruct (Detection.image_writes E zip_path _ _ _ _ Hinfo Hdecode Hok)
    as (results & -> & Hw).
  by exists img.
Qed.

Lemma files_written_app (d : str) (t u : list event) :
  files_written d (t ++ u) = files_written d t ++ files_written d u.
Proof.
  unfold files_written. by rewrite Detection.writes_app, map_app, List.filter_app.
Qed.

Lemma processed_cleanly_counts (E : externals) zip_path zip_ref image_name :
  processed_cleanly E zip_path zip_ref image_name = true ->
  length (files_written PERSON_DIR
            (trace (process_image E zip_path zip_ref image_name))) =
    length (boxes_found E zip_ref image_name) /\
  length (files_written NO_PERSON_DIR
            (trace (process_image E zip_path zip_ref image_name))) =
    if bool_decide (boxes_found E zip_ref image_name = []) then 1%nat else 0%nat.
Proof.
  intros (img & _ & Hw)%processed_cleanly_writes.
  unfold files_written. rewrite Hw. case_bool_decide as Hboxes.
  - rewrite Hboxes. cbn [map fst List.filter].
    by rewrite no_person_path_not_in_person_dir, no_person_path_in_no_person_dir.
  - rewrite (Detection.paths_of_crops _ _ _ _ 0%nat).
    rewrite Detection.filter_all, Detection.filter_none.
    + by rewrite length_map, length_seq.
    + intros p (i & <- & _)%in_map_iff. apply person_path_not_in_no_person_dir.
    + intros p (i & <- & _)%in_map_iff. apply person_path_in_person_dir.
Qed.

(** X3. For an archive that opens and whose image members are all decoded
    and processed without exception, the worker writes to Person as many
    files as the detector returned boxes over all the members, writes to
    No_Person one file per member without box, and logs nothing. *)
Theorem clean_archive_counts
    (E : externals) (zip_path : str) (zip_ref : archive) :
  ZipFile E zip_path = inr zip_ref ->
  forallb (processed_cleanly E zip_path zip_ref)
    (List.filter is_image_file (namelist zip_ref)) = true ->
  length (files_written PERSON_DIR (trace (process_zip_archive E zip_path))) =
    sum_list (map (fun n => length (boxes_found E zip_ref n))
                (List.filter is_image_file (namelist zip_ref))) /\
  length (files_written NO_PERSON_DIR (trace (process_zip_archive E zip_path))) =
    length (List.filter (fun n => bool_decide (boxes_found E zip_ref n = []))
              (List.filter is_image_file (namelist zip_ref))) /\
  logged (trace (process_zip_archive E zip_path)) = [].
Proof.
  intros Hopen. rewrite process_zip_archive_unfold, Hopen. cbn [trace fst].
  change (files_written ?d (LoadModel ?w :: ?t)) with (files_written d t).
  change (logged (LoadModel ?w :: ?t)) with (logged t).
  induction (List.filter is_image_file (namelist zip_ref)) as [| n names IH].
  - done.
  - cbn [forallb]. intros [Hn Hnames]%andb_true_iff.
    destruct (IH Hnames) as (IHp & IHn & IHl).
    destruct (processed_cleanly_counts E zip_path zip_ref n Hn) as [Hp Hnp].
    cbn [List.flat_map map sum_list List.filter].
    rewrite !files_written_app, !length_app, ImageFailures.logged_app.
    rewrite Hp, Hnp, IHp, IHn, IHl.
    pose proof (process_image_logged_length E zip_path zip_ref n) as Hlog.
    rewrite Hn in Hlog. apply nil_length_inv in Hlog. rewrite Hlog.
    repeat split. by case_bool_decide.
Qed.

(** X4. For an archive that opens, the worker logs exactly one record for
    each image member that is not decoded and processed to the end (an
    unreadable member, undecodable bytes, an exception of the detector or
    of a write), and no record for the others. *)
Theorem log_records_count_the_failures
    (E : externals) (zip_path : str) (zip_ref : archive) :
  ZipFile E zip_path = inr zip_ref ->
  length (logged (trace (process_zip_archive E zip_path))) =
    length (List.filter (fun n => negb (processed_cleanly E zip_path zip_ref n))
              (List.filter is_image_file (namelist zip_ref))).
Proof.
  intros Hopen. rewrite process_zip_archive_unfold, Hopen. cbn [trace fst].
  change (logged (LoadModel ?w :: ?t)) with (logged t).
  induction (List.filter is_image_file (namelist zip_ref)) as [| n names IH];
    [reflexivity |].
  cbn [List.flat_map List.filter].
  rewrite ImageFailures.logged_app, length_app, IH, process_image_logged_length.
  by destruct (processed_cleanly E zip_path zip_ref n).
Qed.

(** X5. For an archive that opens, the detector is called exactly once on
    each image member that is read and decoded, in the order of the
    listing, and on nothing else. *)
Theorem detector_runs_once_per_decoded_image
    (E : externals) (zip_path : str) (zip_ref : archive) :
  ZipFile E zip_path = inr zip_ref ->
  inferences (trace (process_zip_archive E zip_path)) =
    omap (decoded E zip_ref) (List.filter is_image_file (namelist zip_ref)).
Proof.
  intros Hopen. rewrite process_zip_archive_unfold, Hopen. cbn [trace fst].
  change (inferences (LoadModel ?w :: ?t)) with (inferences t).
  induction (List.filter is_image_file (namelist zip_ref)) as [| n names IH];
    [reflexivity |].
  cbn [List.flat_map]. rewrite inferences_app, IH, process_image_inferences.
  change (omap ?f (n :: names))
    with (match f n with Some y => y :: omap f names | None => omap f names end).
  by destruct (decoded E zip_ref n).
Qed.

End Accounting.

(** ** Boxes that lie inside the image *)

Module Shapes.
Import Py posixpath Effects Pipeline Observe Account.
Import EffectFacts FlowFacts ImageFacts PathFacts CropFacts.

Lemma has_shape_spec (h w : nat) (img : image) :
  has_shape h w img = true <->
  length img = h /\ Forall (fun row => length row = w) img.
Proof.
  unfold has_shape. rewrite andb_true_iff, bool_decide_eq_true.
  rewrite forallb_forall, Forall_forall. split; intros [Hh Hw]; split; try done.
  - intros row Hrow%list_elem_of_In. eapply bool_decide_eq_true_1, Hw, Hrow.
  - intros row Hrow%list_elem_of_In. apply bool_decide_eq_true_2, Hw, Hrow.
Qed.

Lemma box_inside_spec (h w : nat) (b : box) :
  box_inside h w b = true <->
  (0 <= x1 b < x2 b /\ x2 b <= Z.of_nat w) /\
  (0 <= y1 b < y2 b /\ y2 b <= Z.of_nat h).
Proof.
  unfold box_inside. rewrite !andb_true_iff, !Z.leb_le, !Z.ltb_lt. lia.
Qed.

Lemma slice_rows {A} (P : A -> Prop) (lo hi : Z) (l : list A) :
  Forall P l -> Forall P (slice lo hi l).
Proof. intros H. unfold slice. by apply Forall_drop, Forall_take. Qed.

(** The crop of a box inside the image has the height and the width of
    the box. *)
Lemma crop_shape (h w : nat) (img : image) (b : box) :
  has_shape h w img = true -> box_inside h w b = true ->
  has_shape (Z.to_nat (y2 b - y1 b)) (Z.to_nat (x2 b - x1 b)) (crop img b) = true.
Proof.
  intros [Hh Hw]%has_shape_spec [Hx Hy]%box_inside_spec.
  apply has_shape_spec. unfold crop. subst h. destruct Hx as [Hx1 Hx2].
  destruct Hy as [Hy1 Hy2]. split.
  - rewrite length_map. apply slice_length; [lia | exact Hy2].
  - apply Forall_fmap. apply (slice_rows _ (y1 b) (y2 b)) in Hw.
    eapply Forall_impl; [exact Hw |]. intros row Hrow. cbn in *. subst w.
    apply slice_length; [lia | exact Hx2].
Qed.

Lemma shaped_image_not_empty (h w : nat) (img : image) :
  has_shape h w img = true -> (0 < h)%nat -> (0 < w)%nat ->
  image_empty img = false.
Proof.
  intros [Hh Hw]%has_shape_spec Hhpos Hwpos.
  destruct img as [| row rest]; [cbn in Hh; lia |].
  apply Forall_cons in Hw as [Hrow _]. cbn [image_empty forallb].
  rewrite bool_decide_eq_false_2; [reflexivity |].
  intros ->. cbn in Hrow. lia.
Qed.

Lemma crop_inside_not_empty (h w : nat) (img : image) (b : box) :
  has_shape h w img = true -> box_inside h w b = true ->
  image_empty (crop img b) = false.
Proof.
  intros Himg Hb. pose proof (crop_shape h w img b Himg Hb) as Hcrop.
  apply box_inside_spec in Hb as [Hx Hy].
  eapply shaped_image_not_empty; [exact Hcrop | lia | lia].
Qed.

Lemma boxes_inside_all_written (h w : nat) (img : image) (boxes : list box) :
  has_shape h w img = true -> forallb (box_inside h w) boxes = true ->
  all_crops_written img boxes = true.
Proof.
  intros Himg Hboxes. unfold all_crops_written.
  apply forallb_forall. intros b Hb.
  rewrite forallb_forall in Hboxes.
  by rewrite (crop_inside_not_empty h w img b Himg (Hboxes b Hb)).
Qed.

(** X6. When the decoded image has [h] rows of [w] pixels and every box the
    detector returned has at least one pixel and lies inside the image,
    processing the image raises nothing and logs nothing, every box gets
    its file, and the crop in the file of a box has the height and the
    width of the box. *)
Theorem boxes_inside_the_image_are_all_written
    (E : externals) (zip_path : str) (zip_ref : archive) (image_name : str)
    (img : image) (results : list (list box)) (h w : nat) :
  decoded E zip_ref image_name = Some img ->
  predict E img = inr results ->
  has_shape h w img = true ->
  boxes_of results <> [] ->
  forallb (box_inside h w) (boxes_of results) = true ->
  outcome (process_image_body E zip_path zip_ref image_name) = inr tt /\
  logged (trace (process_image E zip_path zip_ref image_name)) = [] /\
  writes (trace (process_image E zip_path zip_ref image_name)) =
    imap (fun i b => (person_path zip_path image_name i, crop img b))
      (boxes_of results) /\
  Forall (fun b =>
            has_shape (Z.to_nat (y2 b - y1 b)) (Z.to_nat (x2 b - x1 b))
              (crop img b) = true)
    (boxes_of results).
Proof.
  intros Hdec Hpredict Himg Hne Hboxes.
  pose proof (boxes_inside_all_written h w img _ Himg Hboxes) as Hall.
  apply Accounting.decoded_Some in Hdec as (img_bytes & Hinfo & Hdecode).
  assert (Hd : detection_part zip_path image_name img results =
               (crop_writes zip_path image_name img 0 (boxes_of results), inr tt)).
  { unfold detection_part. by rewrite bool_decide_eq_false_2, Hall. }
  assert (Hok : outcome (process_image_body E zip_path zip_ref image_name) = inr tt).
  { by rewrite (Detection.decoded_image_trace E _ _ _ _ _ _ Hinfo Hdecode Hpredict),
      Hd. }
  split; [exact Hok |].
  rewrite process_image_trace, Hok, app_nil_r.
  rewrite (Detection.decoded_image_trace E _ _ _ _ _ _ Hinfo Hdecode Hpredict), Hd.
  cbn [trace fst]. split; [| split].
  - change (logged (ZipRead ?z ?n :: Predict ?i :: ?t)) with (logged t).
    apply ImageFailures.crop_writes_logged.
  - change (writes (ZipRead ?z ?n :: Predict ?i :: ?t)) with (writes t).
    rewrite crop_writes_all by done. apply (Detection.writes_crops _ _ _ _ 0%nat).
  - apply Forall_forall. intros b Hb%list_elem_of_In.
    rewrite forallb_forall in Hboxes. by apply (crop_shape h w), Hboxes.
Qed.

End Shapes.

(** ** The output tree after a run *)

Module OutputTree.
Import Py posixpath Effects Pipeline Observe Account.
Import EffectFacts FlowFacts ImageFacts PathFacts.

Lemma crop_writes_events zip_path image_name img boxes : forall i,
  Forall (image_event zip_path image_name)
    (crop_writes zip_path image_name img i boxes).
Proof.
  induction boxes as [| b rest IH]; intros i; cbn [crop_writes]; [constructor |].
  destruct (image_empty (crop img b)); constructor; [| apply IH].
  left. by exists i.
Qed.

Lemma detection_part_events zip_path image_name img results :
  Forall (image_event zip_path image_name)
    (trace (detection_part zip_path image_name img results)).
Proof.
  unfold detection_part. case_bool_decide.
  - unfold imwrite. destruct (image_empty img); [constructor |].
    constructor; [by right | constructor].
  - apply crop_writes_events.
Qed.

(** Every event of a turn of the image loop is one of those of
    [image_event]. *)
Lemma process_image_events (E : externals) zip_path zip_ref image_name :
  Forall (image_event zip_path image_name)
    (trace (process_image E zip_path zip_ref image_name)).
Proof.
  rewrite process_image_trace, process_image_body_unfold.
  destruct (getinfo zip_ref image_name) as [[e | img_bytes] |];
    [| destruct (imdecode E img_bytes) as [e | [img |]];
       [| destruct (predict E img) as [e | results] |] |];
    cbn [trace outcome fst snd app];
    try (repeat constructor; by eexists).
  do 2 (constructor; [by cbn |]). apply Forall_app. split.
  - apply detection_part_events.
  - destruct (outcome _); repeat constructor. by eexists.
Qed.

Lemma run_trace_app (t u : list event) (fs : filesystem) :
  run_trace (t ++ u) fs = run_trace u (run_trace t fs).
Proof. apply foldl_app. Qed.

Lemma image_events_keep_dirs zip_path image_name (t : list event) : forall fs,
  Forall (image_event zip_path image_name) t ->
  dirs (run_trace t fs) = dirs fs.
Proof.
  induction t as [| ev t IH]; intros fs Ht; [reflexivity |].
  apply Forall_cons in Ht as [Hev Ht]. cbn [run_trace foldl].
  fold (run_trace t (apply_event fs ev)). rewrite IH by done.
  by destruct ev.
Qed.

Lemma image_loop_keeps_dirs (E : externals) zip_path zip_ref (names : list str) :
  forall fs,
  dirs (run_trace
          (List.flat_map (fun n => trace (process_image E zip_path zip_ref n)) names)
          fs) = dirs fs.
Proof.
  induction names as [| n names IH]; intros fs; [reflexivity |].
  cbn [List.flat_map]. rewrite run_trace_app, IH.
  eapply image_events_keep_dirs, process_image_events.
Qed.

Lemma worker_keeps_dirs (E : externals) zip_path (fs : filesystem) :
  dirs (run_trace (trace (process_zip_archive E zip_path)) fs) = dirs fs.
Proof.
  rewrite process_zip_archive_unfold. cbn [trace fst].
  destruct (ZipFile E zip_path) as [[msg | msg] | zip_ref]; try reflexivity.
  cbn [run_trace foldl apply_event]. apply image_loop_keeps_dirs.
Qed.

Lemma batch_keeps_dirs (E : externals) (zip_files : list str) : forall fs,
  dirs (run_trace
          (List.flat_map (fun z => trace (process_zip_archive E z)) zip_files) fs) =
    dirs fs.
Proof.
  induction zip_files as [| z zs IH]; intros fs; [reflexivity |].
  cbn [List.flat_map]. by rewrite run_trace_app, IH, worker_keeps_dirs.
Qed.

Lemma writes_flat_map {A} (g : A -> list event) (l : list A) :
  writes (List.flat_map g l) = List.flat_map (fun a => writes (g a)) l.
Proof.
  induction l as [| a l IH]; [reflexivity |].
  cbn [List.flat_map]. by rewrite Detection.writes_app, IH.
Qed.

Lemma worker_writes (E : externals) zip_path :
  writes (trace (process_zip_archive E zip_path)) =
    match ZipFile E zip_path with
    | inl _ => []
    | inr zip_ref =>
        List.flat_map
          (fun n => writes (trace (process_image E zip_path zip_ref n)))
          (List.filter is_image_file (namelist zip_ref))
    end.
Proof.
  rewrite process_zip_archive_unfold. cbn [trace fst].
  destruct (ZipFile E zip_path) as [[msg | msg] | zip_ref]; try reflexivity.
  change (writes (LoadModel ?w :: ?t)) with (writes t). apply writes_flat_map.
Qed.

Lemma main_writes (E : externals) :
  writes (trace (main E)) =
    List.flat_map (fun z => writes (trace (process_zip_archive E z)))
      (glob_zip_files E).
Proof.
  rewrite main_unfold. cbn [trace fst].
  destruct (glob_zip_files E) as [| z zs]; [reflexivity |].
  change (writes (Log ?a ?b :: MakeDirs ?c :: MakeDirs ?d :: Log ?e ?f :: ?t))
    with (writes t).
  by rewrite Detection.writes_app, app_nil_r, writes_flat_map.
Qed.

Lemma image_events_in_output zip_path image_name (t : list event) :
  Forall (image_event zip_path image_name) t ->
  Forall (fun wr => in_dir PERSON_DIR wr.1 || in_dir NO_PERSON_DIR wr.1 = true)
    (writes t).
Proof.
  induction 1 as [| ev t Hev _ IH]; [constructor |].
  destruct ev; try exact IH.
  change (writes (ImWrite path img :: t)) with ((path, img) :: writes t).
  constructor; [| exact IH]. cbn [fst].
  destruct Hev as [[i ->] | ->].
  - by rewrite person_path_in_person_dir.
  - by rewrite no_person_path_in_no_person_dir, orb_true_r.
Qed.

(** X7. Whatever the members of the archives are called, every file a run
    writes lies directly in [output/Person] or in [output/No_Person]: no
    member name leads a write to another directory. *)
Theorem writes_stay_in_the_output_directories (E : externals) :
  Forall (fun wr => in_dir PERSON_DIR wr.1 || in_dir NO_PERSON_DIR wr.1 = true)
    (writes (trace (main E))).
Proof.
  rewrite main_writes. apply Forall_forall. intros wr Hwr%list_elem_of_In.
  apply in_flat_map in Hwr as (z & _ & Hwr). rewrite worker_writes in Hwr.
  destruct (ZipFile E z) as [e | zip_ref]; [done |].
  apply in_flat_map in Hwr as (n & _ & Hwr).
  pose proof (image_events_in_output z n _ (process_image_events E z zip_ref n)) as H.
  rewrite Forall_forall in H. by apply H, list_elem_of_In.
Qed.




(** X9. Every run, with or without archives in the input directory, leaves
    the directories [output], [output/Person] and [output/No_Person] and
    creates no other directory; with no archive it leaves the files as
    they were. *)
Theorem directories_after_a_run (E : externals) (fs : filesystem) :
  dirs (run E fs) =
    {[ lit "output"; lit "output/Person"; lit "output/No_Person" ]} ∪ dirs fs /\
  files (run (Externals (ZipFile E) (imdecode E) (predict E) []) fs) = files fs.
Proof.
  split; [| reflexivity].
  unfold run. rewrite main_unfold. cbn [trace fst].
  change (run_trace (?a :: ?b :: ?c :: ?t) fs)
    with (run_trace t (apply_event (apply_event (apply_event fs a) b) c)).
  transitivity
    (dirs (apply_event (apply_event (apply_event fs (Log INFO MsgCreatingDirs))
                          (MakeDirs PERSON_DIR)) (MakeDirs NO_PERSON_DIR))).
  - destruct (glob_zip_files E) as [| z zs]; [reflexivity |].
    change (run_trace (?a :: ?t) ?s) with (run_trace t (apply_event s a)).
    rewrite run_trace_app. cbn [run_trace foldl apply_event].
    apply batch_keeps_dirs.
  - cbn [apply_event dirs files].
    change (makedirs PERSON_DIR) with [lit "output"; lit "output/Person"].
    change (makedirs NO_PERSON_DIR) with [lit "output"; lit "output/No_Person"].
    cbn [list_to_set]. set_solver.
Qed.

End OutputTree.

(** ** Names across archives, and names in full *)

Module ArchiveNames.
Import Py posixpath Effects Pipeline Observe Account.
Import PathFacts CropFacts.

(** X10. When the names of two archives, without [.zip], differ and hold
    no underscore, no file of the one has the path of a file of the
    other, in Person or in No_Person, whatever their members are called. *)
Theorem archives_without_underscore_write_apart
    (zip_path zip_path' image_name image_name' : str) (i i' : nat) :
  "_"%char ∉ (splitext (basename zip_path)).1 ->
  "_"%char ∉ (splitext (basename zip_path')).1 ->
  (splitext (basename zip_path)).1 <> (splitext (basename zip_path')).1 ->
  person_path zip_path image_name i <> person_path zip_path' image_name' i' /\
  no_person_path zip_path image_name <> no_person_path zip_path' image_name'.
Proof.
  intros Hz Hz' Hne. split.
  - intros [Hstem _]%Naming.person_path_eq. unfold person_stem in Hstem.
    cbn [lit list_ascii_of_string app] in Hstem.
    by apply cut_at_first in Hstem as [? _].
  - intros Hname%Naming.no_person_path_eq. unfold no_person_filename in Hname.
    cbn [lit list_ascii_of_string app] in Hname.
    by apply cut_at_first in Hname as [? _].
Qed.

Lemma slice_one (p : str) (i : nat) (c : ascii) :
  p !! i = Some c -> slice (Z.of_nat i) (Z.of_nat i + 1) p = [c].
Proof.
  intros Hi. apply lookup_lt_Some in Hi as Hlt.
  rewrite slice_inside by lia.
  replace (Z.to_nat (Z.of_nat i + 1)) with (S i) by lia. rewrite Nat2Z.id.
  rewrite (take_S_r _ _ _ Hi).
  rewrite drop_app_length'; [reflexivity |]. rewrite length_take. lia.
Qed.

(** The loop of [splitext] over the file name stops at a character that is
    not a dot. *)
Lemma splitext_scan_finds (p : str) (steps : nat) : forall (i j : nat) (c : ascii),
  (j < steps)%nat -> p !! (i + j)%nat = Some c -> c <> extsep ->
  (forall k, (k < j)%nat -> is_Some (p !! (i + k)%nat)) ->
  splitext_scan p (Z.of_nat i) steps = true.
Proof.
  induction steps as [| steps IH]; intros i j c Hj Hc Hne Hbefore; [lia |].
  cbn [splitext_scan]. case_bool_decide as Hhere; [reflexivity |].
  destruct j as [| j].
  - exfalso. rewrite Nat.add_0_r in Hc.
    rewrite (slice_one p i c Hc) in Hhere. congruence.
  - replace (Z.of_nat i + 1) with (Z.of_nat (S i)) by lia.
    apply (IH (S i) j c); [lia | | done |].
    + by replace (S i + j)%nat with (i + S j)%nat by lia.
    + intros k Hk. replace (S i + k)%nat with (i + S k)%nat by lia.
      apply Hbefore. lia.
Qed.

(** A file name [N.ext], with a character other than a dot in [N]: the
    root is [N] and the extension [.ext]. *)
Lemma splitext_name (N ext : str) (c : ascii) :
  sep ∉ N -> c ∈ N -> c <> extsep -> sep ∉ ext -> extsep ∉ ext ->
  splitext (N ++ extsep :: ext) = (N, extsep :: ext).
Proof.
  intros HsepN Hc Hne Hsep Hdot. unfold splitext.
  rewrite Extensions.rfind_absent.
  2:{ apply not_elem_of_app. split; [done |].
      apply not_elem_of_cons. split; [discriminate | done]. }
  rewrite Extensions.rfind_last by done.
  apply list_elem_of_lookup_1 in Hc as [j Hj].
  apply lookup_lt_Some in Hj as Hlt.
  replace (-1 + 1) with (Z.of_nat 0) by lia.
  rewrite (splitext_scan_finds _ _ 0 j c).
  - replace (-1 <? Z.of_nat (length N)) with true by (symmetry; apply Z.ltb_lt; lia).
    cbn [andb]. unfold slice_to, slice_from.
    rewrite clamp_index_inside by (rewrite length_app; lia).
    rewrite Nat2Z.id. by rewrite take_app_length, drop_app_length.
  - lia.
  - cbn. by rewrite lookup_app_l.
  - done.
  - intros k Hk. cbn. rewrite lookup_app_l by lia. apply lookup_lt_is_Some. lia.
Qed.

Lemma basename_in_directory (dir f : str) :
  sep ∉ f -> dir = [] \/ (exists d, dir = d ++ [sep]) -> basename (dir ++ f) = f.
Proof.
  intros Hf [-> | (d & ->)].
  - by apply Extensions.basename_plain.
  - rewrite <- app_assoc. by apply Extensions.basename_last.
Qed.

Lemma name_no_sep (N ext : str) :
  sep ∉ N -> sep ∉ ext -> sep ∉ N ++ extsep :: ext.
Proof.
  intros HN Hext. apply not_elem_of_app. split; [done |].
  apply not_elem_of_cons. split; [discriminate | done].
Qed.

(** X11. The names in full. For the archive [zip/A.zip] and its member
    [dir/N.ext] (or [N.ext]), where [A] and [N] hold no separator and at
    least one character other than a dot, and [ext] holds neither
    separator nor dot: the file of the box of index [i] is
    [output/Person/A_N_person_<i>.jpg], and the file of an image without
    box is [output/No_Person/A_N.ext]. *)
Theorem output_names_in_full
    (A dir N ext : str) (a n : ascii) (i : nat) :
  sep ∉ A -> a ∈ A -> a <> extsep ->
  sep ∉ N -> n ∈ N -> n <> extsep ->
  sep ∉ ext -> extsep ∉ ext ->
  dir = [] \/ (exists d, dir = d ++ [sep]) ->
  person_path (lit "zip/" ++ A ++ lit ".zip") (dir ++ N ++ extsep :: ext) i =
    lit "output/Person/" ++ A ++ lit "_" ++ N ++ lit "_person_"
    ++ format_int i ++ lit ".jpg" /\
  no_person_path (lit "zip/" ++ A ++ lit ".zip") (dir ++ N ++ extsep :: ext) =
    lit "output/No_Person/" ++ A ++ lit "_" ++ N ++ extsep :: ext.
Proof.
  intros HsepA Ha Hane HsepN Hn Hnne Hsep Hdot Hdir.
  assert (Hzip : (splitext (basename (lit "zip/" ++ A ++ lit ".zip"))).1 = A).
  { change (lit "zip/" ++ A ++ lit ".zip")
      with ((lit "zip" ++ [sep]) ++ A ++ extsep :: lit "zip").
    rewrite basename_in_directory;
      [| apply name_no_sep; [done | by_evaluation] | right; by eexists].
    rewrite (splitext_name A (lit "zip") a); [done | done .. | |];
      by_evaluation. }
  assert (Hbase : basename (dir ++ N ++ extsep :: ext) = N ++ extsep :: ext).
  { apply basename_in_directory; [by apply name_no_sep | done]. }
  rewrite person_path_unfold, no_person_path_unfold.
  unfold person_filename, no_person_filename.
  rewrite Hzip, Hbase, (splitext_name N ext n) by done.
  done.
Qed.

End ArchiveNames.

(** ** The order of the archives, when they write under names of their own *)

Module Schedule.
Import Py posixpath Effects Pipeline Observe Account.
Import EffectFacts FlowFacts.

Lemma written_names_dom (t : list event) :
  dom (files (run_trace t (Filesystem ∅ ∅))) = written_names t.
Proof.
  rewrite Rerun.run_trace_files. cbn [files]. unfold written_names.
  by rewrite dom_empty_L, (right_id_L ∅ (∪)).
Qed.

(** Two traces that write under different names can be run in either
    order. *)
Lemma run_trace_swap (t u : list event) (fs : filesystem) :
  written_names t ## written_names u ->
  run_trace (t ++ u) fs = run_trace (u ++ t) fs.
Proof.
  intros Hapart. rewrite !OutputTree.run_trace_app.
  rewrite (Rerun.run_trace_from u), (Rerun.run_trace_from t fs).
  rewrite (Rerun.run_trace_from t (run_trace u fs)), (Rerun.run_trace_from u fs).
  unfold over. cbn [dirs files]. f_equal.
  - rewrite !(assoc_L (∪)). f_equal. apply (comm_L (∪)).
  - rewrite !(assoc_L (∪)). f_equal. apply map_union_comm.
    apply map_disjoint_dom. by rewrite !written_names_dom.
Qed.

Lemma writes_apart_permutation (E : externals) (zs zs' : list str) :
  zs ≡ₚ zs' ->
  writes_apart E zs ->
  writes_apart E zs' /\
  forall fs,
    run_trace (List.flat_map (fun z => trace (process_zip_archive E z)) zs) fs =
    run_trace (List.flat_map (fun z => trace (process_zip_archive E z)) zs') fs.
Proof.
  induction 1 as [| z zs zs' Hperm IH | y x l | zs1 zs2 zs3 _ IH1 _ IH2].
  - done.
  - cbn [writes_apart]. intros [Hz Hzs]. destruct (IH Hzs) as [Hzs' Heq].
    split; [split; [by rewrite <- Hperm | done] |].
    intros fs. cbn [List.flat_map]. by rewrite !OutputTree.run_trace_app, Heq.
  - cbn [writes_apart]. intros [[Hyx Hy]%Forall_cons [Hx Hl]].
    split; [split; [apply Forall_cons; split; [by symmetry | done] | done] |].
    intros fs. cbn [List.flat_map]. rewrite !(assoc_L (++)).
    rewrite !(OutputTree.run_trace_app (_ ++ _)). f_equal.
    by apply run_trace_swap.
  - intros H1. destruct (IH1 H1) as [H2 Heq1]. destruct (IH2 H2) as [H3 Heq2].
    split; [done |]. intros fs. by rewrite Heq1.
Qed.

(** X14. When no two archives of a batch write a file of the same name, the
    output tree after the batch is the same in whatever order the pool
    takes the archives. *)
Theorem order_of_archives_does_not_matter
    (E : externals) (zip_files zip_files' : list str) (fs : filesystem) :
  zip_files ≡ₚ zip_files' ->
  writes_apart E zip_files ->
  run_trace (trace (executor_map E zip_files)) fs =
    run_trace (trace (executor_map E zip_files')) fs.
Proof.
  intros Hperm Hapart. rewrite !executor_map_unfold. cbn [trace fst].
  by apply writes_apart_permutation.
Qed.

End Schedule.

(** ** The further theorems on the small input directory *)

Module OnDemo2.
Import Py posixpath Effects Pipeline Observe Account Demo Demo2.

(** The member [crc.png] of [batch2], whose read raises, between
    [thin.jpg] and [late.jpg]. *)
Lemma failing_image_is_logged_and_skipped_witness :
  writes (trace (process_image demo_all (lit "zip/batch2.zip") batch2
                   (lit "crc.png"))) = [] /\
  logged (trace (process_image demo_all (lit "zip/batch2.zip") batch2
                   (lit "crc.png"))) =
    [(ERROR, MsgErrorProcessing (lit "crc.png") (lit "zip/batch2.zip")
               (BadZipFile (lit "Bad CRC-32")))] /\
  for_each ([lit "thin.jpg"] ++ lit "crc.png" :: [lit "late.jpg"])
    (process_image demo_all (lit "zip/batch2.zip") batch2) =
    (trace (for_each [lit "thin.jpg"]
              (process_image demo_all (lit "zip/batch2.zip") batch2))
       ++ trace (process_image demo_all (lit "zip/batch2.zip") batch2
                   (lit "crc.png"))
       ++ trace (for_each [lit "late.jpg"]
                   (process_image demo_all (lit "zip/batch2.zip") batch2)),
     inr tt).
Proof.
  apply (ImageFailures.failing_image_is_logged_and_skipped demo_all
           (lit "zip/batch2.zip") batch2 [lit "thin.jpg"] [lit "late.jpg"]
           (lit "crc.png") (BadZipFile (lit "Bad CRC-32"))).
  reflexivity.
Defined.

(** The member [trio.png]: three boxes, the second without width; the
    file of the first is written, those of the second and third are not. *)
Lemma empty_crop_stops_the_image_witness :
  writes (trace (process_image demo2 (lit "zip/trio.zip") trio (lit "trio.png"))) =
    imap (fun i c => (person_path (lit "zip/trio.zip") (lit "trio.png") i, c))
      (crops_before_failure (img2 7)
         (boxes_of [[Box 0 0 1 1; Box 1 0 1 2; Box 1 1 2 2]])) /\
  (length (crops_before_failure (img2 7)
             (boxes_of [[Box 0 0 1 1; Box 1 0 1 2; Box 1 1 2 2]]))
   < length (boxes_of [[Box 0 0 1 1; Box 1 0 1 2; Box 1 1 2 2]]))%nat /\
  files_written NO_PERSON_DIR
    (trace (process_image demo2 (lit "zip/trio.zip") trio (lit "trio.png"))) = [] /\
  logged (trace (process_image demo2 (lit "zip/trio.zip") trio (lit "trio.png"))) =
    [(ERROR, MsgErrorProcessing (lit "trio.png") (lit "zip/trio.zip")
               (Exception (lit "cv2.error")))].
Proof.
  apply (ImageFailures.empty_crop_stops_the_image demo2 (lit "zip/trio.zip") trio
           (lit "trio.png") (img2 7) [[Box 0 0 1 1; Box 1 0 1 2; Box 1 1 2 2]]);
    reflexivity.
Defined.

(** The archive [clean.zip]: three files in Person, one in No_Person. *)
Lemma clean_archive_counts_witness :
  length (files_written PERSON_DIR
            (trace (process_zip_archive demo2 (lit "zip/clean.zip")))) =
    sum_list (map (fun n => length (boxes_found demo2 clean n))
                (List.filter is_image_file (namelist clean))) /\
  length (files_written NO_PERSON_DIR
            (trace (process_zip_archive demo2 (lit "zip/clean.zip")))) =
    length (List.filter (fun n => bool_decide (boxes_found demo2 clean n = []))
              (List.filter is_image_file (namelist clean))) /\
  logged (trace (process_zip_archive demo2 (lit "zip/clean.zip"))) = [].
Proof.
  apply (Accounting.clean_archive_counts demo2 (lit "zip/clean.zip") clean);
    reflexivity.
Defined.

(** [batch1]: one member of five is not processed to the end. *)
Lemma log_records_count_the_failures_witness :
  length (logged (trace (process_zip_archive demo_all (lit "zip/batch1.zip")))) =
    length (List.filter
              (fun n => negb (processed_cleanly demo_all (lit "zip/batch1.zip")
                                batch1 n))
              (List.filter is_image_file (namelist batch1))).
Proof.
  apply (Accounting.log_records_count_the_failures demo_all
           (lit "zip/batch1.zip") batch1).
  reflexivity.
Defined.

(** [batch1]: four members decode, the detector runs four times. *)
Lemma detector_runs_once_per_decoded_image_witness :
  inferences (trace (process_zip_archive demo_all (lit "zip/batch1.zip"))) =
    omap (decoded demo_all batch1) (List.filter is_image_file (namelist batch1)).
Proof.
  apply (Accounting.detector_runs_once_per_decoded_image demo_all
           (lit "zip/batch1.zip") batch1).
  reflexivity.
Defined.

(** The member [pair.JPG] of [batch1]: an image of 2 by 2 and two boxes
    inside it. *)
Lemma boxes_inside_the_image_are_all_written_witness :
  outcome (process_image_body demo_all (lit "zip/batch1.zip") batch1
             (lit "pair.JPG")) = inr tt /\
  logged (trace (process_image demo_all (lit "zip/batch1.zip") batch1
                   (lit "pair.JPG"))) = [] /\
  writes (trace (process_image demo_all (lit "zip/batch1.zip") batch1
                   (lit "pair.JPG"))) =
    imap (fun i b =>
            (person_path (lit "zip/batch1.zip") (lit "pair.JPG") i,
             crop (img2 2) b))
      (boxes_of [[Box 0 0 1 1; Box 1 0 2 2]]) /\
  Forall (fun b =>
            has_shape (Z.to_nat (y2 b - y1 b)) (Z.to_nat (x2 b - x1 b))
              (crop (img2 2) b) = true)
    (boxes_of [[Box 0 0 1 1; Box 1 0 2 2]]).
Proof.
  apply (Shapes.boxes_inside_the_image_are_all_written demo_all
           (lit "zip/batch1.zip") batch1 (lit "pair.JPG") (img2 2)
           [[Box 0 0 1 1; Box 1 0 2 2]] 2 2);
    first [reflexivity | discriminate].
Defined.

(** The archives [batch1.zip] and [batch2.zip]. *)
Lemma archives_without_underscore_write_apart_witness :
  person_path (lit "zip/batch1.zip") (lit "x.jpg") 0
    <> person_path (lit "zip/batch2.zip") (lit "x.jpg") 0 /\
  no_person_path (lit "zip/batch1.zip") (lit "x.jpg")
    <> no_person_path (lit "zip/batch2.zip") (lit "x.jpg").
Proof.
  apply (ArchiveNames.archives_without_underscore_write_apart
           (lit "zip/batch1.zip") (lit "zip/batch2.zip")
           (lit "x.jpg") (lit "x.jpg") 0 0).
  - apply (bool_decide_unpack _). vm_compute. exact I.
  - apply (bool_decide_unpack _). vm_compute. exact I.
  - apply (bool_decide_unpack _). vm_compute. exact I.
Defined.

(** The member [d1/scene.png] of [zip/batch1.zip]. *)
Lemma output_names_in_full_witness :
  person_path (lit "zip/" ++ lit "batch1" ++ lit ".zip")
    (lit "d1/" ++ lit "scene" ++ extsep :: lit "png") 0 =
    lit "output/Person/" ++ lit "batch1" ++ lit "_" ++ lit "scene"
    ++ lit "_person_" ++ format_int 0 ++ lit ".jpg" /\
  no_person_path (lit "zip/" ++ lit "batch1" ++ lit ".zip")
    (lit "d1/" ++ lit "scene" ++ extsep :: lit "png") =
    lit "output/No_Person/" ++ lit "batch1" ++ lit "_" ++ lit "scene"
    ++ extsep :: lit "png".
Proof.
  apply (ArchiveNames.output_names_in_full (lit "batch1") (lit "d1/")
           (lit "scene") (lit "png") "b"%char "s"%char 0).
  - apply (bool_decide_unpack _). vm_compute. exact I.
  - apply (bool_decide_unpack _). vm_compute. exact I.
  - discriminate.
  - apply (bool_decide_unpack _). vm_compute. exact I.
  - apply (bool_decide_unpack _). vm_compute. exact I.
  - discriminate.
  - apply (bool_decide_unpack _). vm_compute. exact I.
  - apply (bool_decide_unpack _). vm_compute. exact I.
  - right. exists (lit "d1"). reflexivity.
Defined.

(** [batch1.zip] and [batch2.zip], taken in the two orders. *)
Lemma written_names_permutation_witness :
  written_names
    (trace (executor_map demo_all [lit "zip/batch1.zip"; lit "zip/batch2.zip"])) =
  written_names
    (trace (executor_map demo_all [lit "zip/batch2.zip"; lit "zip/batch1.zip"])).
Proof.
  apply (PoolOrder.written_names_permutation demo_all
           [lit "zip/batch1.zip"; lit "zip/batch2.zip"]
           [lit "zip/batch2.zip"; lit "zip/batch1.zip"]).
  apply perm_swap.
Defined.

(** The second box of [pair.JPG]: its pixel (0, 0) is the pixel (0, 1) of
    the image. *)
Lemma crop_pixel_witness :
  exists cropped_row,
    crop (img2 2) (Box 1 0 2 2) !! 0%nat = Some cropped_row /\
    cropped_row !! 0%nat = [px 2; px 0] !! (Z.to_nat (x1 (Box 1 0 2 2)) + 0)%nat.
Proof.
  apply (CropFacts.crop_pixel (img2 2) (Box 1 0 2 2) 0 0 [px 2; px 0]);
    first [reflexivity | cbn; lia].
Defined.

(** [batch1.zip] and [batch2.zip] write under different names. *)
Lemma order_of_archives_does_not_matter_witness :
  run_trace
    (trace (executor_map demo_all [lit "zip/batch1.zip"; lit "zip/batch2.zip"]))
    empty_fs =
  run_trace
    (trace (executor_map demo_all [lit "zip/batch2.zip"; lit "zip/batch1.zip"]))
    empty_fs.
Proof.
  apply (Schedule.order_of_archives_does_not_matter demo_all
           [lit "zip/batch1.zip"; lit "zip/batch2.zip"]
           [lit "zip/batch2.zip"; lit "zip/batch1.zip"] empty_fs).
  - apply perm_swap.
  - cbn [writes_apart]. split; [| split; [constructor | exact I]].
    apply List.Forall_cons; [| constructor].
    apply (bool_decide_unpack _). vm_compute. exact I.
Defined.

End OnDemo2.
